(** * Catagotchi: the tick loop, the key flags and the pet's attributes

    A shallow embedding of the two controller files of the repository,
    [src/src/app.ts] and [src/unnamed/part_000], together with models of
    the two classes they import ([./Cat.js] and [./KeyListener.js]), whose
    sources are not part of the tree and are therefore modelled from the
    specification.

    Conventions.
    - JavaScript numbers that the program uses as integers (attributes,
      pixel coordinates, key codes in the examples) are [Z].  Frame
      timestamps ([DOMHighResTimeStamp]) are taken in [Z] units of the
      host clock; the throttle only subtracts and compares them.
    - Every method of the controller is a computation in a small state
      monad over the fields of the class; where a call can throw, the
      method also returns how it ended, and the state is what the
      interrupted call left.
    - The order of the calls a method makes on other objects is kept in a
      history (the field [history] of the controller state), so that
      statements about "what is called, and in which order" are statements
      about a list. *)

From Stdlib Require Import ZArith List Bool String Lia DecimalString.
From Stdlib Require QArith_base DecimalPos DecimalZ.
From stdpp Require Import gmap strings.
Import ListNotations.

Local Open Scope Z_scope.

(** * The mutators of the pet

    The four methods of [Cat] that change it, as data: a sequence of calls
    is a list, and the history of the controller records them. *)

Inductive Mutator : Type := Ignore | Feed | Play | Sleep.

(** * The KeyListener class *)

Module KeyListener.
Section Model.

Context {Code : Type} `{Countable Code}.

(** Modelled from the spec: the values of the static constants
    [KeyListener.KEY_F], [KEY_P] and [KEY_S] ([./KeyListener.js] is not
    in the tree).  They are the "fixed set of monitored keys (here: F,
    P, S)". *)
Variables KEY_F KEY_P KEY_S : Code.

(** Modelled from the spec: the monitored set of [KeyListener], "a fixed
    set of key codes". *)
Definition monitored : list Code := [KEY_F; KEY_P; KEY_S].

Definition isMonitored (code : Code) : bool :=
  bool_decide (code ∈ monitored).

(** Modelled from the spec: the class [KeyListener] ([./KeyListener.js]
    is not in the tree): "a mapping from key code to boolean 'is
    currently held down'", over "a fixed set of key codes". *)
Record t : Type := { keyStates : gmap Code bool }.

(** Modelled from the spec: the constructor of [KeyListener]; no key has
    been seen yet. *)
Definition new : t := {| keyStates := ∅ |}.

(** Modelled from the spec: the key-down subscription of [KeyListener]:
    "on key-down sets the corresponding flag true"; a code outside the
    monitored set has no flag. *)
Definition keydown (code : Code) (k : t) : t :=
  if isMonitored code
  then {| keyStates := <[code := true]> (keyStates k) |}
  else k.

(** Modelled from the spec: the key-up subscription of [KeyListener]:
    "on key-up sets it false". *)
Definition keyup (code : Code) (k : t) : t :=
  if isMonitored code
  then {| keyStates := <[code := false]> (keyStates k) |}
  else k.

(** Modelled from the spec: [KeyListener.isKeyDown]: "returns current
    held state for [code]; never fails". *)
Definition isKeyDown (k : t) (code : Code) : bool :=
  default false (keyStates k !! code).

(** The key signals of the host. *)
Inductive KeyEvent : Type :=
| KeyDown (code : Code)
| KeyUp (code : Code).

Definition dispatch (k : t) (e : KeyEvent) : t :=
  match e with
  | KeyDown code => keydown code k
  | KeyUp code => keyup code k
  end.

(** The listener after the given key signals, oldest first. *)
Definition after (events : list KeyEvent) : t :=
  fold_left dispatch events new.

(** Every flag that is set belongs to a monitored code. *)
Definition onlyMonitored (k : t) : Prop :=
  forall code, isMonitored code = false -> keyStates k !! code = None.

End Model.

Arguments t Code {_ _}.
Arguments KeyEvent Code : clear implicits.

End KeyListener.

(** * The Cat class *)

Module Cat.

(** Modelled from the spec: the "fixed amounts" of the mutators of [Cat]
    ([./Cat.js] is not in the tree, and the specification gives no
    numbers). *)
Record Rules : Type := {
  feedAmount : Z;       (* feed(): hunger-satisfaction gained *)
  playMoodAmount : Z;   (* play(): mood gained *)
  playEnergyCost : Z;   (* play(): energy spent *)
  sleepAmount : Z;      (* sleep(): energy gained *)
  hungerDecay : Z;      (* ignore(): hunger-satisfaction lost per tick *)
  energyDecay : Z;      (* ignore(): energy lost per tick *)
  moodDecay : Z         (* ignore(): mood lost per tick *)
}.

(** Modelled from the spec: the fields of [Cat] ([./Cat.js] is not in the
    tree).  [hunger] is the hunger-satisfaction of the testable
    properties: decay drives it down and 0 is starvation. *)
Record t : Type := {
  energy : Z;
  hunger : Z;
  mood : Z;
  alive : bool
}.

(** Modelled from the spec: the bounds of the attributes of [Cat]:
    "integer, bounded [0, 100]", "clamp, never wrap". *)
Definition clamp (v : Z) : Z := Z.max 0 (Z.min 100 v).

(** Modelled from the spec: the constructor of [Cat]: "hunger=50,
    energy=50, mood=50", alive. *)
Definition new : t :=
  {| energy := 50; hunger := 50; mood := 50; alive := true |}.

(** Modelled from the spec: the death transition of [Cat]: "hunger or
    energy bottoming out at 0 triggers death"; it "fires inside ignore()
    or a mutator when a monitored attribute reaches its death
    threshold". *)
Definition checkDeath (c : t) : t :=
  if (hunger c <=? 0) || (energy c <=? 0)
  then {| energy := energy c; hunger := hunger c; mood := mood c;
          alive := false |}
  else c.

Section Mutators.

Variable r : Rules.

(** Modelled from the spec: [Cat.feed]: "increases hunger-satisfaction by
    a fixed amount, clamped to bounds. No effect if not alive." *)
Definition feed (c : t) : t :=
  if alive c
  then checkDeath {| energy := energy c;
                     hunger := clamp (hunger c + feedAmount r);
                     mood := mood c;
                     alive := true |}
  else c.

(** Modelled from the spec: [Cat.play]: "increases mood by a fixed amount
    and decreases energy by a fixed amount, both clamped. No effect if not
    alive." *)
Definition play (c : t) : t :=
  if alive c
  then checkDeath {| energy := clamp (energy c - playEnergyCost r);
                     hunger := hunger c;
                     mood := clamp (mood c + playMoodAmount r);
                     alive := true |}
  else c.

(** Modelled from the spec: [Cat.sleep]: "increases energy by a fixed
    amount, clamped. No effect if not alive." *)
Definition sleep (c : t) : t :=
  if alive c
  then checkDeath {| energy := clamp (energy c + sleepAmount r);
                     hunger := hunger c;
                     mood := mood c;
                     alive := true |}
  else c.

(** Modelled from the spec: [Cat.ignore]: "hunger worsens, energy drains,
    mood drops — by fixed per-tick deltas, clamped"; a no-op once dead
    ("all mutators become no-ops"). *)
Definition ignore (c : t) : t :=
  if alive c
  then checkDeath {| energy := clamp (energy c - energyDecay r);
                     hunger := clamp (hunger c - hungerDecay r);
                     mood := clamp (mood c - moodDecay r);
                     alive := true |}
  else c.

(** Modelled from the spec: [Cat.isAlive], the aliveness flag. *)
Definition isAlive (c : t) : bool := alive c.

(** Modelled from the spec: the accessors of [Cat]: "read current clamped
    values; no side effects". *)
Definition getEnergy (c : t) : Z := energy c.

Definition getHunger (c : t) : Z := hunger c.

Definition getMood (c : t) : Z := mood c.

Definition call (c : t) (m : Mutator) : t :=
  match m with
  | Ignore => ignore c
  | Feed => feed c
  | Play => play c
  | Sleep => sleep c
  end.

(** The cat after the given calls, oldest first. *)
Definition calls (ms : list Mutator) (c : t) : t :=
  fold_left call ms c.

End Mutators.

Definition inBounds (v : Z) : Prop := 0 <= v <= 100.

Definition bounded (c : t) : Prop :=
  inBounds (energy c) /\ inBounds (hunger c) /\ inBounds (mood c).

(** Amounts used to run the model on concrete inputs. *)
Definition exampleRules : Rules :=
  {| feedAmount := 10; playMoodAmount := 10; playEnergyCost := 5;
     sleepAmount := 10; hungerDecay := 10; energyDecay := 5;
     moodDecay := 5 |}.

End Cat.

(** * What the controller uses of its two collaborators

    [app.ts] and [part_000] import [Cat] and [KeyListener] and use them
    through the methods below only; the controller is written against
    these interfaces. *)

Class CatAPI (C : Type) : Type := {
  newCat : C;                 (* new Cat() *)
  isAlive : C -> bool;
  ignore : C -> C;
  feed : C -> C;
  play : C -> C;
  sleep : C -> C;
  getEnergy : C -> Z;
  getHunger : C -> Z;
  getMood : C -> Z
}.

Class KeyListenerAPI (Code K : Type) : Type := {
  KEY_F : Code;
  KEY_P : Code;
  KEY_S : Code;
  newKeyListener : K;         (* new KeyListener() *)
  isKeyDown : K -> Code -> bool;
  keydown : Code -> K -> K;   (* the listener's reaction to a key-down signal *)
  keyup : Code -> K -> K      (* the listener's reaction to a key-up signal *)
}.

Definition mutate {C : Type} `{CatAPI C} (m : Mutator) (c : C) : C :=
  match m with
  | Ignore => ignore c
  | Feed => feed c
  | Play => play c
  | Sleep => sleep c
  end.

(** The modelled [Cat], under given amounts, as a [CatAPI]. *)
Definition specCat (r : Cat.Rules) : CatAPI Cat.t :=
  {| newCat := Cat.new;
     isAlive := Cat.isAlive;
     ignore := Cat.ignore r;
     feed := Cat.feed r;
     play := Cat.play r;
     sleep := Cat.sleep r;
     getEnergy := Cat.getEnergy;
     getHunger := Cat.getHunger;
     getMood := Cat.getMood |}.

(** The modelled [KeyListener], for given codes of F, P and S, as a
    [KeyListenerAPI]. *)
Definition specKeyListener {Code : Type} `{Countable Code} (f p s : Code)
  : KeyListenerAPI Code (KeyListener.t Code) :=
  {| KEY_F := f; KEY_P := p; KEY_S := s;
     newKeyListener := KeyListener.new;
     isKeyDown := KeyListener.isKeyDown;
     keydown := KeyListener.keydown f p s;
     keyup := KeyListener.keyup f p s |}.

(** The user actions that go with the keys that are down: F feeds, P
    plays, S sleeps, in this order. *)
Definition heldActions {Code K : Type} `{KeyListenerAPI Code K} (k : K)
  : list Mutator :=
  (if isKeyDown k KEY_F then [Feed] else []) ++
  (if isKeyDown k KEY_P then [Play] else []) ++
  (if isKeyDown k KEY_S then [Sleep] else []).

(** The cat after the given calls, oldest first. *)
Definition mutateAll {C : Type} `{CatAPI C} (ms : list Mutator) (c : C) : C :=
  fold_left (fun c m => mutate m c) ms c.

(** * The host: canvas, image, 2D context, scheduler *)

Record HTMLCanvasElement : Type := {
  width : Z;
  height : Z
}.

(** An image reports width 0 until it is loaded. *)
Record HTMLImageElement : Type := {
  src : string;
  imageWidth : Z
}.

(** The calls the controller makes on its [CanvasRenderingContext2D]. *)
Inductive ContextCall : Type :=
| clearRect (x y w h : Z)
| drawImage (image : HTMLImageElement) (dx dy dWidth : Z)
    (dHeight : QArith_base.Q)
| setFont (font : string)
| setFillStyle (color : string)
| setTextAlign (alignment : string)
| fillText (text : string) (x y : Z).

(** What the controller does to the objects around it, in order.
    [TickCalled timestamp] records that [step timestamp] called
    [gameTick]. *)
Inductive Event : Type :=
| CatCalled (m : Mutator)
| ContextCalled (c : ContextCall)
| TickCalled (timestamp : Z)
| FrameRequested.

(** What the host delivers to the page. *)
Inductive Input (Code : Type) : Type :=
| AnimationFrame (timestamp : Z)
| KeyDown (code : Code)
| KeyUp (code : Code)
| ImageLoaded (naturalWidth : Z).

Arguments AnimationFrame {Code} timestamp.
Arguments KeyDown {Code} code.
Arguments KeyUp {Code} code.
Arguments ImageLoaded {Code} naturalWidth.

(** The text of a number in a template literal. *)
Definition numberToString (n : Z) : string :=
  NilZero.string_of_int (Z.to_int n).

(** ** Reading a history *)

Definition mutatorOf (e : Event) : option Mutator :=
  match e with CatCalled m => Some m | _ => None end.

Definition contextCallOf (e : Event) : option ContextCall :=
  match e with ContextCalled c => Some c | _ => None end.

Definition tickOf (e : Event) : option Z :=
  match e with TickCalled timestamp => Some timestamp | _ => None end.

Definition isDrawing (e : Event) : bool :=
  match e with ContextCalled _ => true | _ => false end.

(** The calls made on the cat, oldest first. *)
Definition mutators (h : list Event) : list Mutator := omap mutatorOf h.

(** The calls made on the 2D context: what is on the display. *)
Definition drawn (h : list Event) : list ContextCall := omap contextCallOf h.

(** The timestamps of the frames on which [gameTick] was called. *)
Definition ticks (h : list Event) : list Z := omap tickOf h.

(** Everything but the drawing. *)
Definition undrawn (h : list Event) : list Event :=
  List.filter (fun e => negb (isDrawing e)) h.

Definition Mutator_eqb (a b : Mutator) : bool :=
  match a, b with
  | Ignore, Ignore | Feed, Feed | Play, Play | Sleep, Sleep => true
  | _, _ => false
  end.

(** How often a mutator was called. *)
Definition callsOf (m : Mutator) (h : list Event) : nat :=
  length (List.filter (Mutator_eqb m) (mutators h)).

(** The user-triggered calls (all but [ignore]). *)
Definition userActions (h : list Event) : list Mutator :=
  List.filter (fun m => negb (Mutator_eqb Ignore m)) (mutators h).

(** ** The throttle, in the words of the specification

    "compares the signal's timestamp to the last executed tick's
    timestamp; if the elapsed time is at least 3000, executes one
    gameTick() and records the new timestamp". *)

Fixpoint throttle (last : Z) (frames : list Z) : list Z :=
  match frames with
  | [] => []
  | timestamp :: rest =>
      if 3000 <=? timestamp - last
      then timestamp :: throttle timestamp rest
      else throttle last rest
  end.

Fixpoint throttleLast (last : Z) (frames : list Z) : Z :=
  match frames with
  | [] => last
  | timestamp :: rest =>
      if 3000 <=? timestamp - last
      then throttleLast timestamp rest
      else throttleLast last rest
  end.

Definition frameOf {Code : Type} (i : Input Code) : option Z :=
  match i with AnimationFrame timestamp => Some timestamp | _ => None end.

Definition framesOf {Code : Type} (inputs : list (Input Code)) : list Z :=
  omap frameOf inputs.

(** * Methods as state transformers *)

Definition M (S A : Type) : Type := S -> A * S.

Definition ret {S A : Type} (a : A) : M S A := fun s => (a, s).

Definition bind {S A B : Type} (m : M S A) (k : A -> M S B) : M S B :=
  fun s => let (a, s') := m s in k a s'.

Definition get {S : Type} : M S S := fun s => (s, s).

Definition modify {S : Type} (f : S -> S) : M S unit := fun s => (tt, f s).

(** [if (b) { m }] *)
Definition when {S : Type} (b : bool) (m : M S unit) : M S unit :=
  if b then m else ret tt.

(** The state a method leaves. *)
Definition exec {S A : Type} (m : M S A) (s : S) : S := snd (m s).

Declare Scope method_scope.
Delimit Scope method_scope with method.
Notation "x <- m ;; k" := (bind m (fun x => k))
  (at level 100, m at next level, k at level 200) : method_scope.
Notation "m ;; k" := (bind m (fun _ => k))
  (at level 100, k at level 200) : method_scope.

(** * Methods that may throw

    A call on a property that holds no function throws a [TypeError]; the
    exception ends every method on the call stack, and what the methods
    did to the object before it stays done. *)

Inductive Exception : Type := TypeError.

Inductive Completion (A : Type) : Type :=
| Normal (a : A)
| Thrown (e : Exception).

Arguments Normal {A} a.
Arguments Thrown {A} e.

Definition MX (S A : Type) : Type := S -> Completion A * S.

Definition retX {S A : Type} (a : A) : MX S A := fun s => (Normal a, s).

Definition throw {S A : Type} (e : Exception) : MX S A :=
  fun s => (Thrown e, s).

Definition bindX {S A B : Type} (m : MX S A) (k : A -> MX S B) : MX S B :=
  fun s =>
    match m s with
    | (Normal a, s') => k a s'
    | (Thrown e, s') => (Thrown e, s')
    end.

Definition getX {S : Type} : MX S S := fun s => (Normal s, s).

Definition modifyX {S : Type} (f : S -> S) : MX S unit :=
  fun s => (Normal tt, f s).

(** [if (b) { m }] *)
Definition whenX {S : Type} (b : bool) (m : MX S unit) : MX S unit :=
  if b then m else retX tt.

(** How a method ends, and the state it leaves, thrown or not. *)
Definition outcome {S A : Type} (m : MX S A) (s : S) : Completion A :=
  fst (m s).

Definition execX {S A : Type} (m : MX S A) (s : S) : S := snd (m s).

Declare Scope throwing_scope.
Delimit Scope throwing_scope with throwing.
Notation "x <- m ;; k" := (bindX m (fun x => k))
  (at level 100, m at next level, k at level 200) : throwing_scope.
Notation "m ;; k" := (bindX m (fun _ => k))
  (at level 100, k at level 200) : throwing_scope.

Local Open Scope method_scope.

(** * [src/src/app.ts] *)

Module AppTs.
Section Catagotchi.

Context {C Code K : Type} `{CatAPI C} `{KeyListenerAPI Code K}.

(** The fields of the class.  [ctx] is the sink of the drawing calls: what
    it received is [drawn (history g)]. *)
Record Catagotchi : Type := {
  canvas : HTMLCanvasElement;
  background : HTMLImageElement;
  cat : C;
  keyListener : K;
  lastTickTimeStamp : Z;
  history : list Event
}.

Definition setBackground (b : HTMLImageElement) (g : Catagotchi) :=
  {| canvas := canvas g; background := b; cat := cat g;
     keyListener := keyListener g;
     lastTickTimeStamp := lastTickTimeStamp g; history := history g |}.

Definition setCat (c : C) (g : Catagotchi) :=
  {| canvas := canvas g; background := background g; cat := c;
     keyListener := keyListener g;
     lastTickTimeStamp := lastTickTimeStamp g; history := history g |}.

Definition setKeyListener (k : K) (g : Catagotchi) :=
  {| canvas := canvas g; background := background g; cat := cat g;
     keyListener := k;
     lastTickTimeStamp := lastTickTimeStamp g; history := history g |}.

Definition setLastTickTimeStamp (timestamp : Z) (g : Catagotchi) :=
  {| canvas := canvas g; background := background g; cat := cat g;
     keyListener := keyListener g;
     lastTickTimeStamp := timestamp; history := history g |}.

Definition setHistory (h : list Event) (g : Catagotchi) :=
  {| canvas := canvas g; background := background g; cat := cat g;
     keyListener := keyListener g;
     lastTickTimeStamp := lastTickTimeStamp g; history := h |}.

Definition record (e : Event) : M Catagotchi unit :=
  modify (fun g => setHistory (history g ++ [e]) g).

(** [this.cat.ignore()], [this.cat.feed()], ... *)
Definition onCat (m : Mutator) : M Catagotchi unit :=
  modify (fun g => setCat (mutate m (cat g)) g) ;; record (CatCalled m).

(** [this.ctx.clearRect(...)], [this.ctx.fillText(...)], ... *)
Definition onCtx (c : ContextCall) : M Catagotchi unit :=
  record (ContextCalled c).

(** [requestAnimationFrame(this.step)] *)
Definition requestAnimationFrame : M Catagotchi unit :=
  record FrameRequested.

Definition clearScreen : M Catagotchi unit :=
  g <- get ;;
  onCtx (clearRect 0 0 (width (canvas g)) (height (canvas g))).

(** The defaults [fontSize = 20], [color = 'red'] and [alignment =
    'center'] are supplied by the callers. *)
Definition writeTextToCanvas (text : string) (xCoordinate yCoordinate : Z)
    (fontSize : Z) (color : string) (alignment : string)
  : M Catagotchi unit :=
  onCtx (setFont (numberToString fontSize +:+ "px sans-serif")) ;;
  onCtx (setFillStyle color) ;;
  onCtx (setTextAlign alignment) ;;
  onCtx (fillText text xCoordinate yCoordinate).

Definition updateDisplays : M Catagotchi unit :=
  clearScreen ;;
  g <- get ;;
  onCtx (drawImage (background g) 100 100 (imageWidth (background g))
           (QArith_base.Qmake (height (canvas g)) 2)) ;;
  g <- get ;;
  writeTextToCanvas ("Energy: " +:+ numberToString (getEnergy (cat g)))
    100 100 20 "red" "center" ;;
  g <- get ;;
  writeTextToCanvas ("Hunger: " +:+ numberToString (getHunger (cat g)))
    300 100 20 "red" "center" ;;
  g <- get ;;
  writeTextToCanvas ("Mood: " +:+ numberToString (getMood (cat g)))
    500 100 20 "red" "center".

Definition executeUserAction : M Catagotchi unit :=
  g <- get ;;
  when (isKeyDown (keyListener g) KEY_F) (onCat Feed) ;;
  g <- get ;;
  when (isKeyDown (keyListener g) KEY_P) (onCat Play) ;;
  g <- get ;;
  when (isKeyDown (keyListener g) KEY_S) (onCat Sleep).

Definition gameTick : M Catagotchi unit :=
  g <- get ;;
  when (isAlive (cat g))
    (onCat Ignore ;;
     executeUserAction ;;
     updateDisplays).

Definition loadNewImage (source : string) : HTMLImageElement :=
  {| src := source; imageWidth := 0 |}.

(** [now] is what [performance.now()] returns. *)
Definition startRunning (now : Z) : M Catagotchi unit :=
  modify (setLastTickTimeStamp now) ;;
  requestAnimationFrame.

Definition step (timestamp : Z) : M Catagotchi unit :=
  g <- get ;;
  when (3000 <=? timestamp - lastTickTimeStamp g)
    (record (TickCalled timestamp) ;;
     gameTick ;;
     modify (setLastTickTimeStamp timestamp)) ;;
  requestAnimationFrame.

(** The constructor.  [element] is what [querySelector] found; on [null]
    the call [this.canvas.getContext('2d')] throws and nothing is
    constructed.  [lastTickTimeStamp] has no value before [startRunning]
    assigns it; the 0 below is never read. *)
Definition construct (element : option HTMLCanvasElement)
    (innerWidth innerHeight now : Z) : option Catagotchi :=
  match element with
  | None => None
  | Some _ =>
      Some (exec (startRunning now)
              {| canvas := {| width := innerWidth; height := innerHeight |};
                 background := loadNewImage "img/HAPPY CAT.png";
                 cat := newCat;
                 keyListener := newKeyListener;
                 lastTickTimeStamp := 0;
                 history := [] |})
  end.

Definition init (querySelector : string -> option HTMLCanvasElement)
    (innerWidth innerHeight now : Z) : option Catagotchi :=
  construct (querySelector "#canvas") innerWidth innerHeight now.

(** The page reacting to what the host delivers. *)
Definition handle (g : Catagotchi) (i : Input Code) : Catagotchi :=
  match i with
  | AnimationFrame timestamp => exec (step timestamp) g
  | KeyDown code => setKeyListener (keydown code (keyListener g)) g
  | KeyUp code => setKeyListener (keyup code (keyListener g)) g
  | ImageLoaded naturalWidth =>
      setBackground {| src := src (background g);
                       imageWidth := naturalWidth |} g
  end.

Definition run (inputs : list (Input Code)) (g : Catagotchi) : Catagotchi :=
  fold_left handle inputs g.

(** What one call of [updateDisplays] sends to the 2D context. *)
Definition display (g : Catagotchi) : list ContextCall :=
  [ clearRect 0 0 (width (canvas g)) (height (canvas g));
    drawImage (background g) 100 100 (imageWidth (background g))
      (QArith_base.Qmake (height (canvas g)) 2);
    setFont "20px sans-serif"; setFillStyle "red"; setTextAlign "center";
    fillText ("Energy: " +:+ numberToString (getEnergy (cat g))) 100 100;
    setFont "20px sans-serif"; setFillStyle "red"; setTextAlign "center";
    fillText ("Hunger: " +:+ numberToString (getHunger (cat g))) 300 100;
    setFont "20px sans-serif"; setFillStyle "red"; setTextAlign "center";
    fillText ("Mood: " +:+ numberToString (getMood (cat g))) 500 100 ].

End Catagotchi.

Arguments Catagotchi C K : clear implicits.

End AppTs.

(** * [src/unnamed/part_000] *)

Module Part000.
Section Catagotchi.

Context {C Code K : Type} `{CatAPI C} `{KeyListenerAPI Code K}.

(** The fields of the class: those of [app.ts] without [background]. *)
Record Catagotchi : Type := {
  canvas : HTMLCanvasElement;
  cat : C;
  keyListener : K;
  lastTickTimeStamp : Z;
  history : list Event
}.

(** [gameTick] of this file calls [this.updateDisplays()], and the class
    declares no such method.  The property is looked up on the object
    when the call is made: [None] is the file as it stands, where the
    property is undefined and the call throws a [TypeError]; [Some calls]
    is a page on which something outside the file has put a method there,
    [calls] being what that method sends to the 2D context. *)
Variable updateDisplaysProperty : option (Catagotchi -> list ContextCall).

Definition setCat (c : C) (g : Catagotchi) :=
  {| canvas := canvas g; cat := c; keyListener := keyListener g;
     lastTickTimeStamp := lastTickTimeStamp g; history := history g |}.

Definition setKeyListener (k : K) (g : Catagotchi) :=
  {| canvas := canvas g; cat := cat g; keyListener := k;
     lastTickTimeStamp := lastTickTimeStamp g; history := history g |}.

Definition setLastTickTimeStamp (timestamp : Z) (g : Catagotchi) :=
  {| canvas := canvas g; cat := cat g; keyListener := keyListener g;
     lastTickTimeStamp := timestamp; history := history g |}.

Definition setHistory (h : list Event) (g : Catagotchi) :=
  {| canvas := canvas g; cat := cat g; keyListener := keyListener g;
     lastTickTimeStamp := lastTickTimeStamp g; history := h |}.

Definition record (e : Event) : MX Catagotchi unit :=
  modifyX (fun g => setHistory (history g ++ [e]) g).

Definition onCat (m : Mutator) : MX Catagotchi unit :=
  (modifyX (fun g => setCat (mutate m (cat g)) g) ;;
   record (CatCalled m))%throwing.

Definition onCtx (c : ContextCall) : MX Catagotchi unit :=
  record (ContextCalled c).

Definition requestAnimationFrame : MX Catagotchi unit :=
  record FrameRequested.

(** The call [this.updateDisplays()]. *)
Definition updateDisplays : MX Catagotchi unit :=
  match updateDisplaysProperty with
  | None => throw TypeError
  | Some calls =>
      modifyX (fun g =>
        setHistory (history g ++ map ContextCalled (calls g)) g)
  end.

Definition executeUserAction : MX Catagotchi unit :=
  (g <- getX ;;
   whenX (isKeyDown (keyListener g) KEY_F) (onCat Feed) ;;
   g <- getX ;;
   whenX (isKeyDown (keyListener g) KEY_P) (onCat Play) ;;
   g <- getX ;;
   whenX (isKeyDown (keyListener g) KEY_S) (onCat Sleep))%throwing.

Definition gameTick : MX Catagotchi unit :=
  (g <- getX ;;
   whenX (isAlive (cat g))
     (onCat Ignore ;;
      executeUserAction ;;
      updateDisplays))%throwing.

(** Declared and never called in this file. *)
Definition writeTextToCanvas (text : string) (xCoordinate yCoordinate : Z)
    (fontSize : Z) (color : string) (alignment : string)
  : MX Catagotchi unit :=
  (onCtx (setFont (numberToString fontSize +:+ "px sans-serif")) ;;
   onCtx (setFillStyle color) ;;
   onCtx (setTextAlign alignment) ;;
   onCtx (fillText text xCoordinate yCoordinate))%throwing.

(** Declared and never called in this file. *)
Definition loadNewImage (source : string) : HTMLImageElement :=
  {| src := source; imageWidth := 0 |}.

Definition startRunning (now : Z) : MX Catagotchi unit :=
  (modifyX (setLastTickTimeStamp now) ;;
   requestAnimationFrame)%throwing.

Definition step (timestamp : Z) : MX Catagotchi unit :=
  (g <- getX ;;
   whenX (3000 <=? timestamp - lastTickTimeStamp g)
     (record (TickCalled timestamp) ;;
      gameTick ;;
      modifyX (setLastTickTimeStamp timestamp)) ;;
   requestAnimationFrame)%throwing.

Definition construct (element : option HTMLCanvasElement)
    (innerWidth innerHeight now : Z) : option Catagotchi :=
  match element with
  | None => None
  | Some _ =>
      Some (execX (startRunning now)
              {| canvas := {| width := innerWidth; height := innerHeight |};
                 cat := newCat;
                 keyListener := newKeyListener;
                 lastTickTimeStamp := 0;
                 history := [] |})
  end.

Definition init (querySelector : string -> option HTMLCanvasElement)
    (innerWidth innerHeight now : Z) : option Catagotchi :=
  construct (querySelector "#game") innerWidth innerHeight now.

(** The page reacting to what the host delivers.  An exception that
    [step] throws is not caught by the page: the host reports it, and the
    page stays as the interrupted call left it.  This file loads no
    image: [ImageLoaded] finds nothing to update. *)
Definition handle (g : Catagotchi) (i : Input Code) : Catagotchi :=
  match i with
  | AnimationFrame timestamp => execX (step timestamp) g
  | KeyDown code => setKeyListener (keydown code (keyListener g)) g
  | KeyUp code => setKeyListener (keyup code (keyListener g)) g
  | ImageLoaded _ => g
  end.

Definition run (inputs : list (Input Code)) (g : Catagotchi) : Catagotchi :=
  fold_left handle inputs g.

End Catagotchi.

Arguments Catagotchi C K : clear implicits.

End Part000.

(** * The two controllers, side by side

    [agree a p]: an [app.ts] controller and a [part_000] controller hold
    the same cat, the same key flags and the same tick timestamp, and have
    made the same calls apart from drawing. *)

Definition agree {C K : Type} (a : AppTs.Catagotchi C K)
    (p : Part000.Catagotchi C K) : Prop :=
  AppTs.cat a = Part000.cat p /\
  AppTs.keyListener a = Part000.keyListener p /\
  AppTs.lastTickTimeStamp a = Part000.lastTickTimeStamp p /\
  undrawn (AppTs.history a) = undrawn (Part000.history p).

(** * Concrete collaborators

    Key codes 70, 80 and 83 for F, P and S, and [Cat.exampleRules], to run
    the controller on concrete inputs. *)

Definition exampleKeys : KeyListenerAPI Z (KeyListener.t Z) :=
  specKeyListener 70 80 83.

Definition exampleCat : CatAPI Cat.t := specCat Cat.exampleRules.

Definition exampleGame : AppTs.Catagotchi Cat.t (KeyListener.t Z) :=
  {| AppTs.canvas := {| width := 800; height := 600 |};
     AppTs.background := {| src := "img/HAPPY CAT.png"; imageWidth := 0 |};
     AppTs.cat := Cat.new;
     AppTs.keyListener := KeyListener.new;
     AppTs.lastTickTimeStamp := 0;
     AppTs.history := [] |}.

(** The same game with the keys F and P held down. *)
Definition exampleHeldGame : AppTs.Catagotchi Cat.t (KeyListener.t Z) :=
  @AppTs.run _ _ _ exampleCat exampleKeys [KeyDown 70; KeyDown 80]
    exampleGame.

(** The same game, F and P held, with a cat that five [ignore] calls have
    starved. *)
Definition exampleDeadGame : AppTs.Catagotchi Cat.t (KeyListener.t Z) :=
  AppTs.setCat (Cat.calls Cat.exampleRules (repeat Ignore 5) Cat.new)
    exampleHeldGame.

(** A [part_000] controller in the same situation as [exampleGame]. *)
Definition examplePart000Game : Part000.Catagotchi Cat.t (KeyListener.t Z) :=
  {| Part000.canvas := {| width := 800; height := 600 |};
     Part000.cat := Cat.new;
     Part000.keyListener := KeyListener.new;
     Part000.lastTickTimeStamp := 0;
     Part000.history := [] |}.

(** Key signals and frames to run both controllers on. *)
Definition exampleInputs : list (Input Z) :=
  [KeyDown 70; AnimationFrame 1000; AnimationFrame 3000; KeyDown 83;
   KeyUp 70; AnimationFrame 5999; AnimationFrame 6000].

(** * Reading a run

    What a whole run of the page is measured by. *)

(** What one tick does to the cat, by the key flags at that tick. *)
Definition tickCat {C Code K : Type} `{CatAPI C} `{KeyListenerAPI Code K}
    (k : K) (c : C) : C :=
  if isAlive c then mutateAll (heldActions k) (ignore c) else c.

(** Timestamps each at least 3000 after the one before, the first at
    least 3000 after [last]. *)
Fixpoint spaced (last : Z) (timestamps : list Z) : Prop :=
  match timestamps with
  | [] => True
  | timestamp :: rest => 3000 <= timestamp - last /\ spaced timestamp rest
  end.

Definition isFrameRequest (e : Event) : bool :=
  match e with FrameRequested => true | _ => false end.

(** How often [requestAnimationFrame] was called. *)
Definition requested (h : list Event) : nat :=
  length (List.filter isFrameRequest h).

Definition isClearRect (c : ContextCall) : bool :=
  match c with clearRect _ _ _ _ => true | _ => false end.

(** How often the canvas was cleared. *)
Definition cleared (h : list Event) : nat :=
  length (List.filter isClearRect (drawn h)).

(** The texts written on the canvas, oldest first. *)
Definition textOf (c : ContextCall) : option string :=
  match c with fillText text _ _ => Some text | _ => None end.

Definition texts (cs : list ContextCall) : list string := omap textOf cs.

(** The three texts a redraw writes for a cat. *)
Definition labels {C : Type} `{CatAPI C} (c : C) : list string :=
  [ "Energy: " +:+ numberToString (getEnergy c);
    "Hunger: " +:+ numberToString (getHunger c);
    "Mood: " +:+ numberToString (getMood c) ].

(** A call on the 2D context that, if it clears, clears the whole of a
    canvas of the given size. *)
Definition clearsAll (size : HTMLCanvasElement) (c : ContextCall) : Prop :=
  match c with
  | clearRect x y w h => x = 0 /\ y = 0 /\ w = width size /\ h = height size
  | _ => True
  end.

Definition isImageLoaded {Code : Type} (i : Input Code) : bool :=
  match i with ImageLoaded _ => true | _ => false end.

(** The inputs of a page whose image never finishes loading. *)
Definition withoutImage {Code : Type} (inputs : list (Input Code))
  : list (Input Code) :=
  List.filter (fun i => negb (isImageLoaded i)) inputs.

(** Two pages that differ at most in their image and in what was drawn of
    it: same canvas size, cat, key flags and tick timestamp, same calls
    apart from drawing, same texts on the canvas. *)
Definition sameButImage {C K : Type} (g1 g2 : AppTs.Catagotchi C K) : Prop :=
  AppTs.canvas g1 = AppTs.canvas g2
  /\ AppTs.cat g1 = AppTs.cat g2
  /\ AppTs.keyListener g1 = AppTs.keyListener g2
  /\ AppTs.lastTickTimeStamp g1 = AppTs.lastTickTimeStamp g2
  /\ undrawn (AppTs.history g1) = undrawn (AppTs.history g2)
  /\ texts (drawn (AppTs.history g1)) = texts (drawn (AppTs.history g2)).

(** A [part_000] controller with a cat that five [ignore] calls have
    starved. *)
Definition examplePart000DeadGame
  : Part000.Catagotchi Cat.t (KeyListener.t Z) :=
  Part000.setCat (Cat.calls Cat.exampleRules (repeat Ignore 5) Cat.new)
    examplePart000Game.

(** * Facts about the modelled KeyListener *)

Section KeyListenerFacts.

Context {Code : Type} `{Countable Code}.
Variables f p s : Code.

Lemma onlyMonitored_new : KeyListener.onlyMonitored f p s KeyListener.new.
Proof. intros code _. apply lookup_empty. Qed.

Lemma onlyMonitored_dispatch (k : KeyListener.t Code) e :
  KeyListener.onlyMonitored f p s k ->
  KeyListener.onlyMonitored f p s (KeyListener.dispatch f p s k e).
Proof.
  intros Hk code Hcode.
  destruct e as [c | c]; simpl;
    unfold KeyListener.keydown, KeyListener.keyup;
    destruct (KeyListener.isMonitored f p s c) eqn:Hc; simpl; auto;
    rewrite lookup_insert_ne by congruence; auto.
Qed.

Lemma onlyMonitored_fold events : forall k : KeyListener.t Code,
  KeyListener.onlyMonitored f p s k ->
  KeyListener.onlyMonitored f p s
    (fold_left (KeyListener.dispatch f p s) events k).
Proof.
  induction events as [| e events IH]; intros k Hk; simpl; [exact Hk |].
  apply IH, onlyMonitored_dispatch, Hk.
Qed.

Lemma onlyMonitored_after events :
  KeyListener.onlyMonitored f p s (KeyListener.after f p s events).
Proof. apply onlyMonitored_fold, onlyMonitored_new. Qed.

Lemma isKeyDown_unmonitored (k : KeyListener.t Code) code :
  KeyListener.onlyMonitored f p s k ->
  KeyListener.isMonitored f p s code = false ->
  KeyListener.isKeyDown k code = false.
Proof.
  intros Hk Hcode. unfold KeyListener.isKeyDown. now rewrite (Hk code Hcode).
Qed.

Lemma isKeyDown_keydown_other (k : KeyListener.t Code) other code :
  other <> code ->
  KeyListener.isKeyDown (KeyListener.keydown f p s other k) code
  = KeyListener.isKeyDown k code.
Proof.
  intros Hne. unfold KeyListener.keydown, KeyListener.isKeyDown.
  destruct (KeyListener.isMonitored f p s other); simpl; [| reflexivity].
  now rewrite lookup_insert_ne.
Qed.

Lemma isKeyDown_keyup_other (k : KeyListener.t Code) other code :
  other <> code ->
  KeyListener.isKeyDown (KeyListener.keyup f p s other k) code
  = KeyListener.isKeyDown k code.
Proof.
  intros Hne. unfold KeyListener.keyup, KeyListener.isKeyDown.
  destruct (KeyListener.isMonitored f p s other); simpl; [| reflexivity].
  now rewrite lookup_insert_ne.
Qed.

(** C8.  On a listener that has seen any sequence of key signals,
    [isKeyDown code], a total function, is false before any signal; true
    right after a key-down signal for [code]; false right after a key-up
    signal for [code]; unchanged by a signal for another code; and, the
    exception the claim itself makes, always false when [code] is outside
    the monitored set F, P, S, its own key-down signal included. *)
Theorem isKeyDown_follows_monitored_keys
    (events : list (KeyListener.KeyEvent Code)) (code : Code) :
  let k := KeyListener.after f p s events in
  KeyListener.isKeyDown (KeyListener.new : KeyListener.t Code) code = false
  /\ (KeyListener.isMonitored f p s code = true ->
      KeyListener.isKeyDown (KeyListener.keydown f p s code k) code = true)
  /\ KeyListener.isKeyDown (KeyListener.keyup f p s code k) code = false
  /\ (forall other, other <> code ->
      KeyListener.isKeyDown (KeyListener.keydown f p s other k) code
      = KeyListener.isKeyDown k code
      /\ KeyListener.isKeyDown (KeyListener.keyup f p s other k) code
         = KeyListener.isKeyDown k code)
  /\ (KeyListener.isMonitored f p s code = false ->
      KeyListener.isKeyDown k code = false
      /\ KeyListener.isKeyDown (KeyListener.keydown f p s code k) code
         = false).
Proof.
  intros k.
  assert (Hk : KeyListener.onlyMonitored f p s k) by apply onlyMonitored_after.
  split; [| split; [| split; [| split]]].
  - unfold KeyListener.isKeyDown, KeyListener.new.
    cbn [KeyListener.keyStates]. now rewrite lookup_empty.
  - intros Hm. unfold KeyListener.keydown, KeyListener.isKeyDown.
    rewrite Hm. cbn [KeyListener.keyStates]. now rewrite lookup_insert_eq.
  - unfold KeyListener.keyup.
    destruct (KeyListener.isMonitored f p s code) eqn:Hm.
    + unfold KeyListener.isKeyDown. cbn [KeyListener.keyStates].
      now rewrite lookup_insert_eq.
    + now apply isKeyDown_unmonitored.
  - intros other Hne. split.
    + now apply isKeyDown_keydown_other.
    + now apply isKeyDown_keyup_other.
  - intros Hm. split.
    + now apply isKeyDown_unmonitored.
    + unfold KeyListener.keydown. rewrite Hm.
      now apply isKeyDown_unmonitored.
Qed.

End KeyListenerFacts.

(** * Facts about the modelled Cat *)

Create HintDb cat.

Section CatFacts.

Variable r : Cat.Rules.

Lemma clamp_inBounds v : Cat.inBounds (Cat.clamp v).
Proof. unfold Cat.inBounds, Cat.clamp. lia. Qed.

Lemma checkDeath_attributes c :
  Cat.energy (Cat.checkDeath c) = Cat.energy c
  /\ Cat.hunger (Cat.checkDeath c) = Cat.hunger c
  /\ Cat.mood (Cat.checkDeath c) = Cat.mood c.
Proof.
  unfold Cat.checkDeath.
  destruct ((Cat.hunger c <=? 0) || (Cat.energy c <=? 0)); simpl; auto.
Qed.

Lemma checkDeath_bounded c : Cat.bounded c -> Cat.bounded (Cat.checkDeath c).
Proof.
  unfold Cat.bounded.
  destruct (checkDeath_attributes c) as (-> & -> & ->). auto.
Qed.

#[local] Hint Resolve clamp_inBounds checkDeath_bounded : cat.

Lemma call_bounded c m : Cat.bounded c -> Cat.bounded (Cat.call r c m).
Proof.
  intros (He & Hh & Hm).
  destruct m; simpl;
    unfold Cat.ignore, Cat.feed, Cat.play, Cat.sleep;
    (destruct (Cat.alive c); [apply checkDeath_bounded | ]);
    unfold Cat.bounded; simpl; auto with cat.
Qed.

Lemma calls_bounded ms : forall c,
  Cat.bounded c -> Cat.bounded (Cat.calls r ms c).
Proof.
  induction ms as [| m ms IH]; intros c Hc; simpl; [exact Hc |].
  apply IH, call_bounded, Hc.
Qed.

Lemma new_bounded : Cat.bounded Cat.new.
Proof. unfold Cat.bounded, Cat.inBounds; simpl; lia. Qed.

Lemma call_dead c m : Cat.isAlive c = false -> Cat.call r c m = c.
Proof.
  unfold Cat.isAlive. intros Hdead.
  destruct m; simpl; unfold Cat.ignore, Cat.feed, Cat.play, Cat.sleep;
    now rewrite Hdead.
Qed.

Lemma calls_dead ms : forall c,
  Cat.isAlive c = false -> Cat.calls r ms c = c.
Proof.
  induction ms as [| m ms IH]; intros c Hdead; simpl; [reflexivity |].
  rewrite (call_dead c m Hdead). now apply IH.
Qed.

End CatFacts.

(** C1.  Starting from the initial cat, after every call of every sequence
    of [feed], [play], [sleep] and [ignore] calls (whatever the fixed
    amounts are), energy, hunger and mood are within [0, 100]. *)
Theorem attributes_stay_in_bounds (r : Cat.Rules) (ms : list Mutator)
    (n : nat) :
  Cat.bounded (Cat.calls r (take n ms) Cat.new).
Proof. apply calls_bounded, new_bounded. Qed.

(** C2.  Once [isAlive] is false it stays false, and any further sequence
    of mutator calls leaves the cat, with all its attributes, as it
    was. *)
Theorem death_is_terminal (r : Cat.Rules) (before after : list Mutator) :
  Cat.isAlive (Cat.calls r before Cat.new) = false ->
  Cat.isAlive (Cat.calls r (before ++ after) Cat.new) = false
  /\ Cat.calls r (before ++ after) Cat.new = Cat.calls r before Cat.new
  /\ forall m,
       Cat.call r (Cat.calls r (before ++ after) Cat.new) m
       = Cat.calls r before Cat.new.
Proof.
  intros Hdead.
  assert (Heq : Cat.calls r (before ++ after) Cat.new
                = Cat.calls r before Cat.new).
  { unfold Cat.calls at 1. rewrite fold_left_app. now apply calls_dead. }
  rewrite Heq. repeat split; auto.
  intros m. now apply call_dead.
Qed.

(** [death_is_terminal] at a cat that five [ignore] calls have starved. *)
Lemma death_is_terminal_witness :
  Cat.isAlive
    (Cat.calls Cat.exampleRules
       ([Ignore; Ignore; Ignore; Ignore; Ignore] ++ [Feed; Play; Sleep; Ignore])
       Cat.new) = false
  /\ Cat.hunger
       (Cat.calls Cat.exampleRules
          ([Ignore; Ignore; Ignore; Ignore; Ignore] ++ [Feed; Play; Sleep; Ignore])
          Cat.new) = 0.
Proof.
  destruct (death_is_terminal Cat.exampleRules
              [Ignore; Ignore; Ignore; Ignore; Ignore]
              [Feed; Play; Sleep; Ignore] eq_refl) as (Hdead & Heq & _).
  split; [exact Hdead | rewrite Heq; reflexivity].
Defined.

(** * Histories *)

Section HistoryFacts.

Lemma ticks_app h1 h2 : ticks (h1 ++ h2) = ticks h1 ++ ticks h2.
Proof. apply omap_app. Qed.

Lemma mutators_app h1 h2 : mutators (h1 ++ h2) = mutators h1 ++ mutators h2.
Proof. apply omap_app. Qed.

Lemma drawn_app h1 h2 : drawn (h1 ++ h2) = drawn h1 ++ drawn h2.
Proof. apply omap_app. Qed.

Lemma undrawn_app h1 h2 : undrawn (h1 ++ h2) = undrawn h1 ++ undrawn h2.
Proof. apply List.filter_app. Qed.

Lemma ticks_CatCalled ms : ticks (map CatCalled ms) = [].
Proof. induction ms; simpl; auto. Qed.

Lemma ticks_ContextCalled cs : ticks (map ContextCalled cs) = [].
Proof. induction cs; simpl; auto. Qed.

Lemma mutators_CatCalled ms : mutators (map CatCalled ms) = ms.
Proof. induction ms; simpl; f_equal; auto. Qed.

Lemma mutators_ContextCalled cs : mutators (map ContextCalled cs) = [].
Proof. induction cs; simpl; auto. Qed.

Lemma drawn_CatCalled ms : drawn (map CatCalled ms) = [].
Proof. induction ms; simpl; auto. Qed.

Lemma drawn_ContextCalled cs : drawn (map ContextCalled cs) = cs.
Proof. induction cs; simpl; f_equal; auto. Qed.

Lemma undrawn_CatCalled ms : undrawn (map CatCalled ms) = map CatCalled ms.
Proof. induction ms; simpl; f_equal; auto. Qed.

Lemma undrawn_ContextCalled cs : undrawn (map ContextCalled cs) = [].
Proof. induction cs; simpl; auto. Qed.

Lemma callsOf_app m h1 h2 :
  callsOf m (h1 ++ h2) = (callsOf m h1 + callsOf m h2)%nat.
Proof.
  unfold callsOf. now rewrite mutators_app, List.filter_app, length_app.
Qed.

Lemma callsOf_ContextCalled m cs : callsOf m (map ContextCalled cs) = 0%nat.
Proof. unfold callsOf. now rewrite mutators_ContextCalled. Qed.

End HistoryFacts.

(** * Facts about [src/src/app.ts] *)

Section AppTsFacts.

Context {C Code K : Type} `{CatAPI C} `{KeyListenerAPI Code K}.

Abbreviation Game := (AppTs.Catagotchi C K).

Ltac fields :=
  cbn [AppTs.canvas AppTs.background AppTs.cat AppTs.keyListener
       AppTs.lastTickTimeStamp AppTs.history
       AppTs.setBackground AppTs.setCat AppTs.setKeyListener
       AppTs.setLastTickTimeStamp AppTs.setHistory fst snd].

Ltac methods :=
  unfold AppTs.requestAnimationFrame, AppTs.onCtx, AppTs.onCat, AppTs.record,
    bind, get, modify, when, ret, exec.

Lemma writeTextToCanvas_run text x y (g : Game) :
  AppTs.writeTextToCanvas text x y 20 "red" "center" g
  = (tt, AppTs.setHistory
           (AppTs.history g ++
            map ContextCalled
              [setFont "20px sans-serif"; setFillStyle "red";
               setTextAlign "center"; fillText text x y]) g).
Proof.
  unfold AppTs.writeTextToCanvas. methods. fields.
  rewrite <- !app_assoc. reflexivity.
Qed.

Lemma updateDisplays_run (g : Game) :
  AppTs.updateDisplays g
  = (tt, AppTs.setHistory
           (AppTs.history g ++ map ContextCalled (AppTs.display g)) g).
Proof.
  unfold AppTs.updateDisplays, AppTs.clearScreen, AppTs.writeTextToCanvas.
  methods. fields. unfold AppTs.display. cbn [map].
  rewrite <- !app_assoc. reflexivity.
Qed.

Lemma executeUserAction_run (g : Game) :
  AppTs.executeUserAction g
  = (tt, AppTs.setHistory
           (AppTs.history g ++
            map CatCalled (heldActions (AppTs.keyListener g)))
           (AppTs.setCat
              (mutateAll (heldActions (AppTs.keyListener g)) (AppTs.cat g))
              g)).
Proof.
  destruct g as [cv bg c k l h].
  unfold AppTs.executeUserAction. methods. fields.
  unfold heldActions, mutateAll.
  destruct (isKeyDown k KEY_F); cbn;
    destruct (isKeyDown k KEY_P); cbn;
    destruct (isKeyDown k KEY_S); cbn;
    rewrite <- ?app_assoc, ?app_nil_r; reflexivity.
Qed.

Lemma gameTick_dead (g : Game) :
  isAlive (AppTs.cat g) = false -> AppTs.gameTick g = (tt, g).
Proof.
  intros Hdead. unfold AppTs.gameTick. methods. now rewrite Hdead.
Qed.

Lemma gameTick_alive (g : Game) :
  isAlive (AppTs.cat g) = true ->
  AppTs.gameTick g
  = (tt,
     let g' :=
       AppTs.setCat
         (mutateAll (heldActions (AppTs.keyListener g))
            (ignore (AppTs.cat g))) g in
     AppTs.setHistory
       (AppTs.history g ++
        [CatCalled Ignore] ++
        map CatCalled (heldActions (AppTs.keyListener g)) ++
        map ContextCalled (AppTs.display g')) g').
Proof.
  intros Halive. unfold AppTs.gameTick.
  unfold bind at 1, get at 1, when. rewrite Halive.
  unfold bind at 1. unfold AppTs.onCat at 1. methods. fields.
  unfold bind. rewrite executeUserAction_run. fields.
  rewrite updateDisplays_run. fields.
  cbv zeta. unfold AppTs.display. fields. cbn [mutate].
  rewrite <- !app_assoc. reflexivity.
Qed.

(** What a tick leaves of the fields the throttle reads. *)
Lemma gameTick_lastTickTimeStamp (g : Game) :
  AppTs.lastTickTimeStamp (exec AppTs.gameTick g) = AppTs.lastTickTimeStamp g.
Proof.
  unfold exec. destruct (isAlive (AppTs.cat g)) eqn:Halive.
  - now rewrite gameTick_alive.
  - now rewrite gameTick_dead.
Qed.

Lemma gameTick_ticks (g : Game) :
  ticks (AppTs.history (exec AppTs.gameTick g)) = ticks (AppTs.history g).
Proof.
  unfold exec. destruct (isAlive (AppTs.cat g)) eqn:Halive.
  - rewrite gameTick_alive by assumption. cbv zeta. fields.
    rewrite !ticks_app, ticks_CatCalled, ticks_ContextCalled.
    cbn. now rewrite app_nil_r.
  - now rewrite gameTick_dead.
Qed.

Lemma gameTick_keyListener (g : Game) :
  AppTs.keyListener (exec AppTs.gameTick g) = AppTs.keyListener g.
Proof.
  unfold exec. destruct (isAlive (AppTs.cat g)) eqn:Halive.
  - now rewrite gameTick_alive.
  - now rewrite gameTick_dead.
Qed.

Lemma step_run timestamp (g : Game) :
  exec (AppTs.step timestamp) g
  = if 3000 <=? timestamp - AppTs.lastTickTimeStamp g
    then
      let g' :=
        exec AppTs.gameTick
          (AppTs.setHistory (AppTs.history g ++ [TickCalled timestamp]) g) in
      AppTs.setHistory (AppTs.history g' ++ [FrameRequested])
        (AppTs.setLastTickTimeStamp timestamp g')
    else AppTs.setHistory (AppTs.history g ++ [FrameRequested]) g.
Proof.
  unfold AppTs.step. unfold exec, bind at 1 2, get at 1, when.
  destruct (3000 <=? timestamp - AppTs.lastTickTimeStamp g).
  - unfold bind at 1 2. unfold AppTs.record at 1. unfold modify at 1.
    destruct (AppTs.gameTick _) as [[] g'] eqn:Hg'.
    cbv zeta. methods. fields. reflexivity.
  - methods. fields. reflexivity.
Qed.

Lemma step_lastTickTimeStamp timestamp (g : Game) :
  AppTs.lastTickTimeStamp (exec (AppTs.step timestamp) g)
  = if 3000 <=? timestamp - AppTs.lastTickTimeStamp g
    then timestamp else AppTs.lastTickTimeStamp g.
Proof.
  rewrite step_run.
  destruct (3000 <=? timestamp - AppTs.lastTickTimeStamp g); reflexivity.
Qed.

Lemma step_ticks timestamp (g : Game) :
  ticks (AppTs.history (exec (AppTs.step timestamp) g))
  = ticks (AppTs.history g) ++
    (if 3000 <=? timestamp - AppTs.lastTickTimeStamp g
     then [timestamp] else []).
Proof.
  rewrite step_run.
  destruct (3000 <=? timestamp - AppTs.lastTickTimeStamp g);
    cbv zeta; fields.
  - rewrite ticks_app, gameTick_ticks. fields.
    rewrite ticks_app. cbn. now rewrite app_nil_r.
  - rewrite ticks_app. cbn. reflexivity.
Qed.

(** The throttle over everything the host delivers. *)
Lemma run_throttle (inputs : list (Input Code)) : forall g : Game,
  ticks (AppTs.history (AppTs.run inputs g))
  = ticks (AppTs.history g) ++
    throttle (AppTs.lastTickTimeStamp g) (framesOf inputs)
  /\ AppTs.lastTickTimeStamp (AppTs.run inputs g)
     = throttleLast (AppTs.lastTickTimeStamp g) (framesOf inputs).
Proof.
  induction inputs as [| i inputs IH]; intros g.
  - cbn. now rewrite app_nil_r.
  - change (AppTs.run (i :: inputs) g)
      with (AppTs.run inputs (AppTs.handle g i)).
    destruct (IH (AppTs.handle g i)) as [IHt IHl]. rewrite IHt, IHl.
    destruct i as [timestamp | code | code | w];
      [| split; reflexivity ..].
    cbn [AppTs.handle].
    rewrite step_ticks, step_lastTickTimeStamp.
    change (framesOf (AnimationFrame timestamp :: inputs))
      with (timestamp :: framesOf inputs).
    cbn [throttle throttleLast].
    destruct (3000 <=? timestamp - AppTs.lastTickTimeStamp g).
    + split; [now rewrite <- app_assoc | reflexivity].
    + split; [now rewrite app_nil_r | reflexivity].
Qed.

Lemma framesOf_frames (frames : list Z) :
  framesOf (map (@AnimationFrame Code) frames) = frames.
Proof.
  induction frames as [| t frames IH]; [reflexivity |].
  change (t :: framesOf (map (@AnimationFrame Code) frames) = t :: frames).
  now rewrite IH.
Qed.

(** C4, as amended.  In a tick with the cat alive, [ignore] is called once
    and then one user action for each monitored key that is held: [feed]
    once if F is down, [play] once if P is down, [sleep] once if S is
    down, so none to three user actions in all. *)
Theorem gameTick_applies_every_held_action (g : Game) :
  isAlive (AppTs.cat g) = true ->
  let after := AppTs.history (exec AppTs.gameTick g) in
  let k := AppTs.keyListener g in
  callsOf Ignore after = (callsOf Ignore (AppTs.history g) + 1)%nat
  /\ callsOf Feed after
     = (callsOf Feed (AppTs.history g)
        + if isKeyDown k KEY_F then 1 else 0)%nat
  /\ callsOf Play after
     = (callsOf Play (AppTs.history g)
        + if isKeyDown k KEY_P then 1 else 0)%nat
  /\ callsOf Sleep after
     = (callsOf Sleep (AppTs.history g)
        + if isKeyDown k KEY_S then 1 else 0)%nat
  /\ userActions after = userActions (AppTs.history g) ++ heldActions k
  /\ (length (heldActions k) <= 3)%nat.
Proof.
  intros Halive after k. subst after k.
  unfold exec. rewrite gameTick_alive by assumption. cbv zeta. fields.
  unfold userActions.
  rewrite !callsOf_app, !callsOf_ContextCalled, !mutators_app,
    mutators_CatCalled, mutators_ContextCalled, !List.filter_app.
  unfold callsOf. rewrite !mutators_CatCalled. unfold heldActions.
  destruct (isKeyDown (AppTs.keyListener g) KEY_F),
    (isKeyDown (AppTs.keyListener g) KEY_P),
    (isKeyDown (AppTs.keyListener g) KEY_S);
    cbn; rewrite ?app_nil_r; repeat split; lia.
Qed.

(** C5.  In a tick with the cat alive, [gameTick] first calls [ignore],
    then, for each of F, P, S in this order and independently of the
    others, the action of the key if it is down ([feed], [play],
    [sleep]), and last redraws, showing the cat as these calls left it;
    with all three keys down all three actions are applied. *)
Theorem gameTick_order (g : Game) :
  isAlive (AppTs.cat g) = true ->
  let k := AppTs.keyListener g in
  AppTs.history (exec AppTs.gameTick g)
  = AppTs.history g ++
    [CatCalled Ignore] ++
    map CatCalled (heldActions k) ++
    map ContextCalled (AppTs.display (exec AppTs.gameTick g))
  /\ AppTs.cat (exec AppTs.gameTick g)
     = mutateAll (heldActions k) (ignore (AppTs.cat g))
  /\ heldActions k
     = (if isKeyDown k KEY_F then [Feed] else []) ++
       (if isKeyDown k KEY_P then [Play] else []) ++
       (if isKeyDown k KEY_S then [Sleep] else [])
  /\ (isKeyDown k KEY_F = true -> isKeyDown k KEY_P = true ->
      isKeyDown k KEY_S = true ->
      mutators (AppTs.history (exec AppTs.gameTick g))
      = mutators (AppTs.history g) ++ [Ignore; Feed; Play; Sleep]
      /\ AppTs.cat (exec AppTs.gameTick g)
         = sleep (play (feed (ignore (AppTs.cat g))))).
Proof.
  intros Halive k. subst k.
  unfold exec. rewrite gameTick_alive by assumption. cbv zeta. fields.
  split; [reflexivity |]. split; [reflexivity |]. split; [reflexivity |].
  intros HF HP HS. unfold heldActions. rewrite HF, HP, HS.
  rewrite !mutators_app, mutators_CatCalled, mutators_ContextCalled.
  split; [now rewrite app_nil_r | reflexivity].
Qed.

(** C6.  With the cat dead, [gameTick] changes nothing: no call on the
    cat, whatever keys are held, and no call on the 2D context. *)
Theorem gameTick_dead_is_noop (g : Game) :
  isAlive (AppTs.cat g) = false ->
  AppTs.gameTick g = (tt, g)
  /\ AppTs.cat (exec AppTs.gameTick g) = AppTs.cat g
  /\ mutators (AppTs.history (exec AppTs.gameTick g))
     = mutators (AppTs.history g)
  /\ drawn (AppTs.history (exec AppTs.gameTick g))
     = drawn (AppTs.history g).
Proof.
  intros Hdead. unfold exec. rewrite gameTick_dead by assumption.
  repeat split.
Qed.

(** C9.  [gameTick] never changes [lastTickTimeStamp], and neither do
    [executeUserAction], [updateDisplays] or the key and image signals;
    [step] sets it to the frame's timestamp on every frame that meets the
    3000 threshold and keeps it on every other frame, without looking at
    the cat: replacing the cat by any other, dead or alive, leaves the
    ticks of every run and its final [lastTickTimeStamp] the same. *)
Theorem only_step_moves_lastTickTimeStamp (g : Game) :
  AppTs.lastTickTimeStamp (exec AppTs.gameTick g) = AppTs.lastTickTimeStamp g
  /\ AppTs.lastTickTimeStamp (exec AppTs.executeUserAction g)
     = AppTs.lastTickTimeStamp g
  /\ AppTs.lastTickTimeStamp (exec AppTs.updateDisplays g)
     = AppTs.lastTickTimeStamp g
  /\ (forall code naturalWidth,
        AppTs.lastTickTimeStamp (AppTs.handle g (KeyDown code))
        = AppTs.lastTickTimeStamp g
        /\ AppTs.lastTickTimeStamp (AppTs.handle g (KeyUp code))
           = AppTs.lastTickTimeStamp g
        /\ AppTs.lastTickTimeStamp (AppTs.handle g (ImageLoaded naturalWidth))
           = AppTs.lastTickTimeStamp g)
  /\ (forall timestamp,
        AppTs.lastTickTimeStamp (exec (AppTs.step timestamp) g)
        = if 3000 <=? timestamp - AppTs.lastTickTimeStamp g
          then timestamp else AppTs.lastTickTimeStamp g)
  /\ (forall (c : C) (inputs : list (Input Code)),
        AppTs.lastTickTimeStamp (AppTs.run inputs (AppTs.setCat c g))
        = AppTs.lastTickTimeStamp (AppTs.run inputs g)
        /\ ticks (AppTs.history (AppTs.run inputs (AppTs.setCat c g)))
           = ticks (AppTs.history (AppTs.run inputs g))).
Proof.
  split; [apply gameTick_lastTickTimeStamp |].
  split; [unfold exec; now rewrite executeUserAction_run |].
  split; [unfold exec; now rewrite updateDisplays_run |].
  split; [intros code naturalWidth; repeat split |].
  split; [intros timestamp; apply step_lastTickTimeStamp |].
  intros c inputs.
  destruct (run_throttle inputs (AppTs.setCat c g)) as [-> ->].
  destruct (run_throttle inputs g) as [-> ->].
  split; reflexivity.
Qed.

End AppTsFacts.

(** * Facts about [src/unnamed/part_000], and the two files compared *)

Section Part000Facts.

Context {C Code K : Type} `{CatAPI C} `{KeyListenerAPI Code K}.

Abbreviation GameA := (AppTs.Catagotchi C K).
Abbreviation GameP := (Part000.Catagotchi C K).

Ltac fieldsP :=
  cbn [Part000.canvas Part000.cat Part000.keyListener
       Part000.lastTickTimeStamp Part000.history
       Part000.setCat Part000.setKeyListener
       Part000.setLastTickTimeStamp Part000.setHistory fst snd].

Ltac fieldsA :=
  cbn [AppTs.canvas AppTs.background AppTs.cat AppTs.keyListener
       AppTs.lastTickTimeStamp AppTs.history
       AppTs.setBackground AppTs.setCat AppTs.setKeyListener
       AppTs.setLastTickTimeStamp AppTs.setHistory fst snd].

Ltac methodsP :=
  unfold Part000.requestAnimationFrame, Part000.onCtx, Part000.onCat,
    Part000.record, bindX, getX, modifyX, whenX, retX, throw, execX, outcome.

Lemma part000_executeUserAction_run (p : GameP) :
  Part000.executeUserAction p
  = (Normal tt,
     Part000.setHistory
       (Part000.history p ++
        map CatCalled (heldActions (Part000.keyListener p)))
       (Part000.setCat
          (mutateAll (heldActions (Part000.keyListener p))
             (Part000.cat p)) p)).
Proof.
  destruct p as [cv c k l h].
  unfold Part000.executeUserAction. methodsP. fieldsP.
  unfold heldActions, mutateAll.
  destruct (isKeyDown k KEY_F); cbn;
    destruct (isKeyDown k KEY_P); cbn;
    destruct (isKeyDown k KEY_S); cbn;
    rewrite <- ?app_assoc, ?app_nil_r; reflexivity.
Qed.

Lemma part000_gameTick_dead property (p : GameP) :
  isAlive (Part000.cat p) = false ->
  Part000.gameTick property p = (Normal tt, p).
Proof.
  intros Hdead. unfold Part000.gameTick. methodsP. now rewrite Hdead.
Qed.

(** A live tick up to the call of [updateDisplays]. *)
Lemma part000_gameTick_alive property (p : GameP) :
  isAlive (Part000.cat p) = true ->
  Part000.gameTick property p
  = Part000.updateDisplays property
      (Part000.setHistory
         (Part000.history p ++
          [CatCalled Ignore] ++
          map CatCalled (heldActions (Part000.keyListener p)))
         (Part000.setCat
            (mutateAll (heldActions (Part000.keyListener p))
               (ignore (Part000.cat p))) p)).
Proof.
  intros Halive. unfold Part000.gameTick.
  unfold bindX at 1, getX at 1, whenX. rewrite Halive.
  unfold bindX at 1. unfold Part000.onCat at 1. methodsP. fieldsP.
  unfold bindX. rewrite part000_executeUserAction_run. fieldsP.
  cbn [mutate]. rewrite <- !app_assoc. reflexivity.
Qed.

Lemma part000_step_run property timestamp (p : GameP) :
  execX (Part000.step property timestamp) p
  = if 3000 <=? timestamp - Part000.lastTickTimeStamp p
    then
      match Part000.gameTick property
              (Part000.setHistory
                 (Part000.history p ++ [TickCalled timestamp]) p) with
      | (Normal _, p') =>
          Part000.setHistory (Part000.history p' ++ [FrameRequested])
            (Part000.setLastTickTimeStamp timestamp p')
      | (Thrown _, p') => p'
      end
    else Part000.setHistory (Part000.history p ++ [FrameRequested]) p.
Proof.
  unfold Part000.step. unfold execX, bindX at 1 2, getX at 1, whenX.
  destruct (3000 <=? timestamp - Part000.lastTickTimeStamp p).
  - unfold bindX at 1 2. unfold Part000.record at 1. unfold modifyX at 1.
    destruct (Part000.gameTick _ _) as [[[] | e] p'] eqn:Hp';
      methodsP; fieldsP; reflexivity.
  - methodsP. fieldsP. reflexivity.
Qed.

(** On a frame that is due, with the cat alive and no [updateDisplays] on
    the object, [step] throws after [ignore] and the actions of the held
    keys: it neither stores the timestamp nor asks for the next frame. *)
Lemma part000_step_throws timestamp (p : GameP) :
  isAlive (Part000.cat p) = true ->
  3000 <= timestamp - Part000.lastTickTimeStamp p ->
  outcome (Part000.step None timestamp) p = Thrown TypeError
  /\ execX (Part000.step None timestamp) p
     = Part000.setHistory
         (Part000.history p ++
          [TickCalled timestamp; CatCalled Ignore] ++
          map CatCalled (heldActions (Part000.keyListener p)))
         (Part000.setCat
            (mutateAll (heldActions (Part000.keyListener p))
               (ignore (Part000.cat p))) p).
Proof.
  intros Halive Hdue. apply Z.leb_le in Hdue. split.
  - unfold outcome, Part000.step. unfold bindX at 1 2, getX at 1, whenX.
    rewrite Hdue. unfold bindX at 1 2. unfold Part000.record at 1.
    unfold modifyX at 1.
    rewrite part000_gameTick_alive by exact Halive. reflexivity.
  - rewrite part000_step_run, Hdue.
    rewrite part000_gameTick_alive by exact Halive.
    unfold Part000.updateDisplays, throw. fieldsP.
    rewrite <- !app_assoc. reflexivity.
Qed.

Lemma ticks_undrawn h : ticks (undrawn h) = ticks h.
Proof.
  induction h as [| e h IH]; [reflexivity |].
  destruct e; cbn; try (f_equal; exact IH); exact IH.
Qed.

Lemma mutators_undrawn h : mutators (undrawn h) = mutators h.
Proof.
  induction h as [| e h IH]; [reflexivity |].
  destruct e; cbn; try (f_equal; exact IH); exact IH.
Qed.

(** ** With a method supplied

    On a page where the object does have an [updateDisplays] that only
    draws, the two controllers stay in step. *)

Variable draws : GameP -> list ContextCall.

Lemma agree_gameTick (a : GameA) (p : GameP) :
  agree a p ->
  agree (exec AppTs.gameTick a) (execX (Part000.gameTick (Some draws)) p).
Proof.
  intros (Hc & Hk & Hl & Hh). unfold exec, execX.
  destruct (isAlive (AppTs.cat a)) eqn:Halive.
  - rewrite gameTick_alive by assumption.
    rewrite part000_gameTick_alive by (now rewrite <- Hc).
    cbv zeta. unfold Part000.updateDisplays, modifyX, agree. fieldsA. fieldsP.
    rewrite !undrawn_app, !undrawn_ContextCalled, !undrawn_CatCalled.
    rewrite Hc, Hk, Hl, Hh. repeat split.
    now rewrite !app_nil_r.
  - rewrite gameTick_dead by assumption.
    rewrite part000_gameTick_dead by (now rewrite <- Hc).
    repeat split; assumption.
Qed.

Lemma agree_executeUserAction (a : GameA) (p : GameP) :
  agree a p ->
  agree (exec AppTs.executeUserAction a)
    (execX Part000.executeUserAction p).
Proof.
  intros (Hc & Hk & Hl & Hh). unfold exec, execX.
  rewrite executeUserAction_run, part000_executeUserAction_run.
  unfold agree. fieldsA. fieldsP.
  rewrite !undrawn_app, !undrawn_CatCalled.
  rewrite Hc, Hk, Hl, Hh. repeat split.
Qed.

Lemma agree_step timestamp (a : GameA) (p : GameP) :
  agree a p ->
  agree (exec (AppTs.step timestamp) a)
    (execX (Part000.step (Some draws) timestamp) p).
Proof.
  intros Hagree. pose proof Hagree as (Hc & Hk & Hl & Hh).
  rewrite step_run, part000_step_run. rewrite <- Hl.
  destruct (3000 <=? timestamp - AppTs.lastTickTimeStamp a).
  - cbv zeta.
    match goal with
    | |- context [exec AppTs.gameTick ?a1] =>
        match goal with
        | |- context [Part000.gameTick (Some draws) ?p1] =>
            assert (H1 : agree a1 p1);
            [| pose proof (agree_gameTick a1 p1 H1) as (Hc' & Hk' & Hl' & Hh');
               destruct (Part000.gameTick (Some draws) p1) as [[[] | e] p']
                 eqn:Hp' ]
        end
    end.
    + unfold agree. fieldsA. fieldsP. rewrite !undrawn_app, Hh.
      repeat split; assumption.
    + unfold execX in *. rewrite Hp' in *. cbn [snd] in *.
      unfold agree. fieldsA. fieldsP. rewrite !undrawn_app, Hh'.
      repeat split; assumption.
    + exfalso. clear - Hp'.
      unfold Part000.gameTick, Part000.updateDisplays in Hp'.
      revert Hp'. methodsP.
      destruct (isAlive _); [| discriminate].
      destruct (Part000.executeUserAction _) as [[[] | e'] p''] eqn:He;
        [discriminate |].
      rewrite part000_executeUserAction_run in He. discriminate.
  - unfold agree. fieldsA. fieldsP. rewrite !undrawn_app, Hh.
    repeat split; assumption.
Qed.

Lemma agree_handle (i : Input Code) (a : GameA) (p : GameP) :
  agree a p ->
  agree (AppTs.handle a i) (Part000.handle (Some draws) p i).
Proof.
  intros Hagree. destruct i as [timestamp | code | code | w].
  - now apply agree_step.
  - destruct Hagree as (Hc & Hk & Hl & Hh). unfold agree. cbn.
    rewrite Hk. repeat split; assumption.
  - destruct Hagree as (Hc & Hk & Hl & Hh). unfold agree. cbn.
    rewrite Hk. repeat split; assumption.
  - exact Hagree.
Qed.

Lemma agree_run (inputs : list (Input Code)) : forall (a : GameA) (p : GameP),
  agree a p ->
  agree (AppTs.run inputs a) (Part000.run (Some draws) inputs p).
Proof.
  induction inputs as [| i inputs IH]; intros a p Hagree; [exact Hagree |].
  apply (IH (AppTs.handle a i) (Part000.handle (Some draws) p i)).
  now apply agree_handle.
Qed.

End Part000Facts.

(** * The theorems at concrete inputs *)

(** [gameTick_applies_every_held_action] with F and P held. *)
Lemma gameTick_applies_every_held_action_witness :
  userActions
    (AppTs.history
       (exec (@AppTs.gameTick _ _ _ exampleCat exampleKeys) exampleHeldGame))
  = [Feed; Play].
Proof.
  destruct (@gameTick_applies_every_held_action _ _ _ exampleCat exampleKeys
              exampleHeldGame eq_refl) as (_ & _ & _ & _ & Hactions & _).
  rewrite Hactions. vm_compute. reflexivity.
Defined.

(** C4, as stated, fails: with F and P held and the cat alive, one tick
    calls [ignore], then [feed], then [play], and both user actions change
    the cat: from 50/50/50, [ignore] leaves energy 45, hunger 40, mood 45,
    [feed] raises hunger to 50, and [play] moves energy to 40 and mood to
    55 (under [Cat.exampleRules]). *)
Lemma gameTick_two_actions_counterexample :
  @isAlive _ exampleCat (AppTs.cat exampleHeldGame) = true
  /\ mutators
       (AppTs.history
          (exec (@AppTs.gameTick _ _ _ exampleCat exampleKeys)
             exampleHeldGame))
     = [Ignore; Feed; Play]
  /\ ~ (length
          (userActions
             (AppTs.history
                (exec (@AppTs.gameTick _ _ _ exampleCat exampleKeys)
                   exampleHeldGame))) <= 1)%nat
  /\ AppTs.cat
       (exec (@AppTs.gameTick _ _ _ exampleCat exampleKeys) exampleHeldGame)
     = {| Cat.energy := 40; Cat.hunger := 50; Cat.mood := 55;
          Cat.alive := true |}.
Proof.
  split; [reflexivity |]. split; [vm_compute; reflexivity |].
  split; [vm_compute; lia | vm_compute; reflexivity].
Qed.

(** [gameTick_order] with F and P held. *)
Lemma gameTick_order_witness :
  mutators
    (AppTs.history
       (exec (@AppTs.gameTick _ _ _ exampleCat exampleKeys) exampleHeldGame))
  = [Ignore; Feed; Play]
  /\ AppTs.cat
       (exec (@AppTs.gameTick _ _ _ exampleCat exampleKeys) exampleHeldGame)
     = {| Cat.energy := 40; Cat.hunger := 50; Cat.mood := 55;
          Cat.alive := true |}.
Proof.
  destruct (@gameTick_order _ _ _ exampleCat exampleKeys exampleHeldGame
              eq_refl) as (Hhistory & Hcat & _).
  split.
  - rewrite Hhistory. vm_compute. reflexivity.
  - rewrite Hcat. vm_compute. reflexivity.
Defined.

(** [gameTick_dead_is_noop] on a starved cat, F and P held. *)
Lemma gameTick_dead_is_noop_witness :
  @AppTs.gameTick _ _ _ exampleCat exampleKeys exampleDeadGame
  = (tt, exampleDeadGame).
Proof.
  exact (proj1 (@gameTick_dead_is_noop _ _ _ exampleCat exampleKeys
                  exampleDeadGame eq_refl)).
Defined.

(** C10.  The two files do not make the same tick-firing decisions.
    [part_000] declares no [updateDisplays], so on the frame at 3000, the
    first that is due, its [step] throws a [TypeError] after [ignore]:
    nothing is drawn, [lastTickTimeStamp] stays at the start time 0 and no
    next frame is asked for.  Fed the frames 0, 1000, 2999, 3000, 5999,
    6000 from the same start, [app.ts] ticks at 3000 and 6000 and calls
    [ignore] twice; [part_000] ticks at 3000, 5999 and 6000 and calls
    [ignore] three times. *)
Theorem part000_throws_where_app_ts_ticks :
  let frames := map AnimationFrame [0; 1000; 2999; 3000; 5999; 6000] in
  let a0 := exec (AppTs.startRunning 0) exampleGame in
  let p0 := execX (Part000.startRunning 0) examplePart000Game in
  let a := @AppTs.run _ _ _ exampleCat exampleKeys frames a0 in
  let p := @Part000.run _ _ _ exampleCat exampleKeys None frames p0 in
  agree a0 p0
  /\ outcome (@Part000.step _ _ _ exampleCat exampleKeys None 3000)
       (@Part000.run _ _ _ exampleCat exampleKeys None
          (map AnimationFrame [0; 1000; 2999]) p0)
     = Thrown TypeError
  /\ ticks (AppTs.history a) = [3000; 6000]
  /\ ticks (Part000.history p) = [3000; 5999; 6000]
  /\ mutators (AppTs.history a) = [Ignore; Ignore]
  /\ mutators (Part000.history p) = [Ignore; Ignore; Ignore]
  /\ AppTs.lastTickTimeStamp a = 6000
  /\ Part000.lastTickTimeStamp p = 0
  /\ requested (AppTs.history a) = 7%nat
  /\ requested (Part000.history p) = 4%nat
  /\ drawn (Part000.history p) = [].
Proof.
  cbv zeta. split; [repeat split |].
  repeat (split; [vm_compute; reflexivity |]).
  vm_compute. reflexivity.
Qed.

(** * Whole runs of [src/src/app.ts] *)

Section RunFacts.

Context {C Code K : Type} `{CatAPI C} `{KeyListenerAPI Code K}.

Abbreviation Page := (AppTs.Catagotchi C K).

Ltac fields :=
  cbn [AppTs.canvas AppTs.background AppTs.cat AppTs.keyListener
       AppTs.lastTickTimeStamp AppTs.history
       AppTs.setBackground AppTs.setCat AppTs.setKeyListener
       AppTs.setLastTickTimeStamp AppTs.setHistory fst snd].

Lemma requested_app h1 h2 :
  requested (h1 ++ h2) = (requested h1 + requested h2)%nat.
Proof. unfold requested. now rewrite List.filter_app, length_app. Qed.

Lemma requested_CatCalled ms : requested (map CatCalled ms) = 0%nat.
Proof. induction ms; simpl; auto. Qed.

Lemma requested_ContextCalled cs : requested (map ContextCalled cs) = 0%nat.
Proof. induction cs; simpl; auto. Qed.

Lemma cleared_app h1 h2 : cleared (h1 ++ h2) = (cleared h1 + cleared h2)%nat.
Proof.
  unfold cleared. now rewrite drawn_app, List.filter_app, length_app.
Qed.

Lemma cleared_CatCalled ms : cleared (map CatCalled ms) = 0%nat.
Proof. unfold cleared. now rewrite drawn_CatCalled. Qed.

Lemma cleared_display (g : Page) :
  cleared (map ContextCalled (AppTs.display g)) = 1%nat.
Proof. unfold cleared. rewrite drawn_ContextCalled. reflexivity. Qed.

Lemma callsOf_CatCalled m ms :
  callsOf m (map CatCalled ms)
  = length (List.filter (Mutator_eqb m) ms).
Proof. unfold callsOf. now rewrite mutators_CatCalled. Qed.

Lemma callsOf_heldActions m (k : K) :
  (callsOf m (map CatCalled (heldActions k)) <= 1)%nat
  /\ callsOf Ignore (map CatCalled (heldActions k)) = 0%nat.
Proof.
  rewrite !callsOf_CatCalled. unfold heldActions.
  destruct (isKeyDown k KEY_F), (isKeyDown k KEY_P), (isKeyDown k KEY_S),
    m; cbn; lia.
Qed.

(** A frame that comes too early only asks for the next frame. *)
Lemma step_early timestamp (g : Page) :
  timestamp - AppTs.lastTickTimeStamp g < 3000 ->
  exec (AppTs.step timestamp) g
  = AppTs.setHistory (AppTs.history g ++ [FrameRequested]) g.
Proof.
  intros Hearly. rewrite step_run.
  apply Z.leb_gt in Hearly. now rewrite Hearly.
Qed.

Lemma gameTick_cat (g : Page) :
  AppTs.cat (exec AppTs.gameTick g)
  = tickCat (AppTs.keyListener g) (AppTs.cat g).
Proof.
  unfold exec, tickCat. destruct (isAlive (AppTs.cat g)) eqn:Halive.
  - now rewrite gameTick_alive.
  - now rewrite gameTick_dead.
Qed.

Lemma gameTick_requested (g : Page) :
  requested (AppTs.history (exec AppTs.gameTick g))
  = requested (AppTs.history g).
Proof.
  unfold exec. destruct (isAlive (AppTs.cat g)) eqn:Halive.
  - rewrite gameTick_alive by assumption. cbv zeta. fields.
    rewrite !requested_app, requested_CatCalled, requested_ContextCalled.
    cbn. lia.
  - now rewrite gameTick_dead.
Qed.

Lemma step_cat timestamp (g : Page) :
  AppTs.cat (exec (AppTs.step timestamp) g)
  = if 3000 <=? timestamp - AppTs.lastTickTimeStamp g
    then tickCat (AppTs.keyListener g) (AppTs.cat g)
    else AppTs.cat g.
Proof.
  rewrite step_run.
  destruct (3000 <=? timestamp - AppTs.lastTickTimeStamp g);
    cbv zeta; fields; [| reflexivity].
  now rewrite gameTick_cat.
Qed.

Lemma step_keyListener timestamp (g : Page) :
  AppTs.keyListener (exec (AppTs.step timestamp) g) = AppTs.keyListener g.
Proof.
  rewrite step_run.
  destruct (3000 <=? timestamp - AppTs.lastTickTimeStamp g);
    cbv zeta; fields; [| reflexivity].
  now rewrite gameTick_keyListener.
Qed.

Lemma step_requested timestamp (g : Page) :
  requested (AppTs.history (exec (AppTs.step timestamp) g))
  = S (requested (AppTs.history g)).
Proof.
  rewrite step_run.
  destruct (3000 <=? timestamp - AppTs.lastTickTimeStamp g);
    cbv zeta; fields; rewrite requested_app.
  - rewrite gameTick_requested. fields. rewrite requested_app. cbn. lia.
  - cbn. lia.
Qed.

(** X1.  After construction, as long as every frame comes less than 3000
    after the start time, whatever keys are pressed or released and
    whenever the image loads: no tick fires, no method of the cat is
    called, nothing is drawn, and [lastTickTimeStamp] is still the start
    time. *)
Theorem nothing_happens_before_first_tick
    (inputs : list (Input Code)) (element : HTMLCanvasElement)
    (innerWidth innerHeight now : Z) (g0 : Page) :
  AppTs.construct (Some element) innerWidth innerHeight now = Some g0 ->
  Forall (fun timestamp => timestamp - now < 3000) (framesOf inputs) ->
  AppTs.cat (AppTs.run inputs g0) = newCat
  /\ AppTs.lastTickTimeStamp (AppTs.run inputs g0) = now
  /\ ticks (AppTs.history (AppTs.run inputs g0)) = []
  /\ mutators (AppTs.history (AppTs.run inputs g0)) = []
  /\ drawn (AppTs.history (AppTs.run inputs g0)) = [].
Proof.
  intros Hg0 Hearly.
  assert (Hquiet : forall (g : Page),
    Forall (fun timestamp => timestamp - AppTs.lastTickTimeStamp g < 3000)
      (framesOf inputs) ->
    AppTs.cat (AppTs.run inputs g) = AppTs.cat g
    /\ AppTs.lastTickTimeStamp (AppTs.run inputs g)
       = AppTs.lastTickTimeStamp g
    /\ ticks (AppTs.history (AppTs.run inputs g)) = ticks (AppTs.history g)
    /\ mutators (AppTs.history (AppTs.run inputs g))
       = mutators (AppTs.history g)
    /\ drawn (AppTs.history (AppTs.run inputs g))
       = drawn (AppTs.history g)).
  { clear. induction inputs as [| i inputs IH]; intros g Hg.
    - repeat split.
    - change (AppTs.run (i :: inputs) g)
        with (AppTs.run inputs (AppTs.handle g i)).
      destruct i as [timestamp | code | code | w];
        [| match goal with
           | |- context [AppTs.handle g ?i] =>
               exact (IH (AppTs.handle g i) Hg)
           end ..].
      change (framesOf (AnimationFrame timestamp :: inputs))
        with (timestamp :: framesOf inputs) in Hg.
      apply Forall_cons in Hg as [Hnow Hrest].
      cbn [AppTs.handle]. rewrite (step_early _ _ Hnow).
      destruct (IH (AppTs.setHistory (AppTs.history g ++ [FrameRequested]) g)
                  Hrest) as (-> & -> & -> & -> & ->).
      fields. rewrite ticks_app, mutators_app, drawn_app. cbn.
      now rewrite !app_nil_r. }
  injection Hg0 as <-.
  match goal with
  | |- context [AppTs.run inputs ?g] => destruct (Hquiet g Hearly)
      as (-> & -> & -> & -> & ->)
  end.
  repeat split.
Qed.

(** X2.  Every frame delivered to [step] asks for exactly one next frame,
    whether or not a tick fired and whether or not the cat is alive; with
    the request [startRunning] makes, a page that has handled [n] frames
    has asked for [n + 1]. *)
Theorem every_frame_requests_the_next
    (inputs : list (Input Code)) (g : Page) :
  requested (AppTs.history (AppTs.run inputs g))
  = (requested (AppTs.history g) + length (framesOf inputs))%nat
  /\ forall element innerWidth innerHeight now,
       option_map
         (fun g0 => requested (AppTs.history (AppTs.run inputs g0)))
         (AppTs.construct (Some element) innerWidth innerHeight now)
       = Some (S (length (framesOf inputs))).
Proof.
  assert (Hrun : forall g : Page,
    requested (AppTs.history (AppTs.run inputs g))
    = (requested (AppTs.history g) + length (framesOf inputs))%nat).
  { clear. induction inputs as [| i inputs IH]; intros g.
    - cbn. lia.
    - change (AppTs.run (i :: inputs) g)
        with (AppTs.run inputs (AppTs.handle g i)).
      rewrite IH.
      destruct i as [timestamp | code | code | w]; [| reflexivity ..].
      change (framesOf (AnimationFrame timestamp :: inputs))
        with (timestamp :: framesOf inputs).
      cbn [AppTs.handle length]. rewrite step_requested. lia. }
  split; [apply Hrun |].
  intros element innerWidth innerHeight now.
  cbn [AppTs.construct option_map]. now rewrite Hrun.
Qed.

Lemma throttle_spaced (frames : list Z) : forall last,
  spaced last (throttle last frames).
Proof.
  induction frames as [| timestamp frames IH]; intros last; cbn; [exact I |].
  destruct (3000 <=? timestamp - last) eqn:Hdue; [| apply IH].
  cbn. split; [now apply Z.leb_le | apply IH].
Qed.

Lemma throttle_sublist (frames : list Z) : forall last,
  sublist (throttle last frames) frames.
Proof.
  induction frames as [| timestamp frames IH]; intros last; cbn;
    [constructor |].
  destruct (3000 <=? timestamp - last).
  - apply sublist_skip, IH.
  - apply sublist_cons, IH.
Qed.

(** X3.  In any run, the frames on which [gameTick] is called form a
    subsequence of the frames delivered, the first of them comes at least
    3000 after [lastTickTimeStamp], and each comes at least 3000 after the
    one before: the cat is never ticked twice within 3000. *)
Theorem ticks_are_3000_apart (inputs : list (Input Code)) (g : Page) :
  exists fired,
    ticks (AppTs.history (AppTs.run inputs g))
    = ticks (AppTs.history g) ++ fired
    /\ sublist fired (framesOf inputs)
    /\ spaced (AppTs.lastTickTimeStamp g) fired.
Proof.
  exists (throttle (AppTs.lastTickTimeStamp g) (framesOf inputs)).
  split; [apply run_throttle |].
  split; [apply throttle_sublist | apply throttle_spaced].
Qed.

(** X4.  While no key changes, the cat depends on the frames only through
    the number of ticks they fire: after any sequence of frames it is the
    cat of before with the effect of one tick ([ignore], then the actions
    of the held keys, if alive) applied once per fired tick. *)
Theorem cat_after_frames (frames : list Z) (g : Page) :
  AppTs.cat (AppTs.run (map AnimationFrame frames) g)
  = Nat.iter
      (length (throttle (AppTs.lastTickTimeStamp g) frames))
      (tickCat (AppTs.keyListener g)) (AppTs.cat g)
  /\ AppTs.keyListener (AppTs.run (map AnimationFrame frames) g)
     = AppTs.keyListener g.
Proof.
  revert g. induction frames as [| timestamp frames IH]; intros g.
  - split; reflexivity.
  - change (AppTs.run (map AnimationFrame (timestamp :: frames)) g)
      with (AppTs.run (map AnimationFrame frames)
              (exec (AppTs.step timestamp) g)).
    destruct (IH (exec (AppTs.step timestamp) g)) as [-> ->].
    rewrite step_cat, step_keyListener, step_lastTickTimeStamp.
    cbn [throttle].
    destruct (3000 <=? timestamp - AppTs.lastTickTimeStamp g);
      [| split; reflexivity].
    cbn [length]. split; [| reflexivity].
    symmetry. apply Nat.iter_succ_r.
Qed.

Lemma gameTick_counts (g : Page) :
  exists live : nat,
    (live <= 1)%nat
    /\ callsOf Ignore (AppTs.history (exec AppTs.gameTick g))
       = (callsOf Ignore (AppTs.history g) + live)%nat
    /\ cleared (AppTs.history (exec AppTs.gameTick g))
       = (cleared (AppTs.history g) + live)%nat
    /\ forall m,
         (callsOf m (AppTs.history (exec AppTs.gameTick g))
          <= callsOf m (AppTs.history g) + live)%nat.
Proof.
  unfold exec. destruct (isAlive (AppTs.cat g)) eqn:Halive.
  - exists 1%nat. rewrite gameTick_alive by assumption. cbv zeta. fields.
    split; [lia |]. split; [| split].
    + rewrite !callsOf_app, callsOf_ContextCalled.
      rewrite (proj2 (callsOf_heldActions Ignore (AppTs.keyListener g))).
      cbn. lia.
    + rewrite !cleared_app, cleared_CatCalled, cleared_display. cbn. lia.
    + intros m. rewrite !callsOf_app, callsOf_ContextCalled.
      pose proof (callsOf_heldActions m (AppTs.keyListener g)) as [Hm H0'].
      destruct m; [rewrite H0'; cbn; lia | cbn in *; lia ..].
  - exists 0%nat. rewrite gameTick_dead by assumption. cbn [snd].
    split; [lia |]. split; [lia |]. split; [lia |]. intros m. lia.
Qed.

Lemma step_counts timestamp (g : Page) :
  exists live : nat,
    (live <= length (if (3000 <=? timestamp - AppTs.lastTickTimeStamp g)%Z
                     then [timestamp] else []))%nat
    /\ callsOf Ignore (AppTs.history (exec (AppTs.step timestamp) g))
       = (callsOf Ignore (AppTs.history g) + live)%nat
    /\ cleared (AppTs.history (exec (AppTs.step timestamp) g))
       = (cleared (AppTs.history g) + live)%nat
    /\ forall m,
         (callsOf m (AppTs.history (exec (AppTs.step timestamp) g))
          <= callsOf m (AppTs.history g) + live)%nat.
Proof.
  rewrite step_run.
  destruct (3000 <=? timestamp - AppTs.lastTickTimeStamp g); cbv zeta; fields.
  - match goal with
    | |- context [exec AppTs.gameTick ?g1] =>
        destruct (gameTick_counts g1) as (live & Hlive & Hi & Hc & Hm)
    end.
    exists live. revert Hi Hc Hm. fields. intros Hi Hc Hm.
    rewrite callsOf_app, cleared_app in *.
    split; [exact Hlive |]. split; [cbn in *; lia |].
    split; [cbn in *; lia |].
    intros m. specialize (Hm m). rewrite !callsOf_app in *. cbn in *. lia.
  - exists 0%nat. split; [cbn; lia |].
    split; [rewrite callsOf_app; cbn; lia |].
    split; [rewrite cleared_app; cbn; lia |].
    intros m. rewrite callsOf_app. cbn. lia.
Qed.

(** X5.  In any run, [ignore] is called at most as often as ticks fire;
    the canvas is cleared for a redraw exactly as often as [ignore] is
    called; and no mutator of the cat is called more often than
    [ignore]. *)
Theorem calls_are_bounded_by_ticks (inputs : list (Input Code)) (g : Page) :
  exists live : nat,
    (live <= length (throttle (AppTs.lastTickTimeStamp g) (framesOf inputs)))%nat
    /\ callsOf Ignore (AppTs.history (AppTs.run inputs g))
       = (callsOf Ignore (AppTs.history g) + live)%nat
    /\ cleared (AppTs.history (AppTs.run inputs g))
       = (cleared (AppTs.history g) + live)%nat
    /\ forall m,
         (callsOf m (AppTs.history (AppTs.run inputs g))
          <= callsOf m (AppTs.history g) + live)%nat.
Proof.
  revert g. induction inputs as [| i inputs IH]; intros g.
  - exists 0%nat. cbn. split; [lia |]. split; [lia |]. split; [lia |].
    intros m. lia.
  - change (AppTs.run (i :: inputs) g)
      with (AppTs.run inputs (AppTs.handle g i)).
    destruct (IH (AppTs.handle g i)) as (rest & Hrest & Hi & Hc & Hm).
    destruct i as [timestamp | code | code | w];
      [| exists rest; repeat split; assumption ..].
    cbn [AppTs.handle] in *.
    destruct (step_counts timestamp g) as (now & Hnow & Hi' & Hc' & Hm').
    rewrite step_lastTickTimeStamp in Hrest.
    change (framesOf (AnimationFrame timestamp :: inputs))
      with (timestamp :: framesOf inputs).
    cbn [throttle].
    exists (now + rest)%nat.
    split; [| split; [lia | split; [lia |]]].
    + destruct (3000 <=? timestamp - AppTs.lastTickTimeStamp g);
        cbn [length] in *; lia.
    + intros m. specialize (Hm m). specialize (Hm' m). lia.
Qed.

Lemma numberToString_inj a b : numberToString a = numberToString b -> a = b.
Proof.
  unfold numberToString. intros Heq.
  assert (Hparse : forall z,
    NilZero.int_of_string (NilZero.string_of_int (Z.to_int z))
    = Some (Z.to_int z)).
  { intros z. apply NilZero.isi; destruct z; cbn; try discriminate;
      intros [= Hnil]; exact (DecimalPos.Unsigned.to_uint_nonnil _ Hnil). }
  pose proof (Hparse a) as Ha. rewrite Heq, Hparse in Ha.
  injection Ha as Ha.
  rewrite <- (DecimalZ.of_to a), <- (DecimalZ.of_to b). now rewrite Ha.
Qed.

Lemma label_inj (label a b : string) : label +:+ a = label +:+ b -> a = b.
Proof.
  induction label as [| ch label IH]; cbn; [auto |].
  intros [= Heq]. auto.
Qed.

(** X6.  A redraw changes nothing but the canvas; it begins by clearing
    the whole canvas, so nothing of an earlier redraw stays; and the three
    texts it writes tell the attributes of the cat apart: two states whose
    redraws write the same texts have the same energy, hunger and mood. *)
Theorem updateDisplays_shows_the_cat (g g' : Page) :
  (AppTs.cat (exec AppTs.updateDisplays g) = AppTs.cat g
   /\ AppTs.keyListener (exec AppTs.updateDisplays g) = AppTs.keyListener g
   /\ AppTs.lastTickTimeStamp (exec AppTs.updateDisplays g)
      = AppTs.lastTickTimeStamp g
   /\ undrawn (AppTs.history (exec AppTs.updateDisplays g))
      = undrawn (AppTs.history g))
  /\ drawn (AppTs.history (exec AppTs.updateDisplays g))
     = drawn (AppTs.history g) ++ AppTs.display g
  /\ head (AppTs.display g)
     = Some (clearRect 0 0 (width (AppTs.canvas g)) (height (AppTs.canvas g)))
  /\ cleared (map ContextCalled (AppTs.display g)) = 1%nat
  /\ (texts (AppTs.display g) = texts (AppTs.display g') ->
      getEnergy (AppTs.cat g) = getEnergy (AppTs.cat g')
      /\ getHunger (AppTs.cat g) = getHunger (AppTs.cat g')
      /\ getMood (AppTs.cat g) = getMood (AppTs.cat g')).
Proof.
  unfold exec. rewrite updateDisplays_run. fields.
  split; [| split; [| split; [| split]]].
  - rewrite undrawn_app, undrawn_ContextCalled, app_nil_r. repeat split.
  - now rewrite drawn_app, drawn_ContextCalled.
  - reflexivity.
  - apply cleared_display.
  - intros Htexts.
    change (texts (AppTs.display g))
      with ["Energy: " +:+ numberToString (getEnergy (AppTs.cat g));
            "Hunger: " +:+ numberToString (getHunger (AppTs.cat g));
            "Mood: " +:+ numberToString (getMood (AppTs.cat g))] in Htexts.
    change (texts (AppTs.display g'))
      with ["Energy: " +:+ numberToString (getEnergy (AppTs.cat g'));
            "Hunger: " +:+ numberToString (getHunger (AppTs.cat g'));
            "Mood: " +:+ numberToString (getMood (AppTs.cat g'))] in Htexts.
    injection Htexts as He Hh Hm.
    repeat split; eapply numberToString_inj, label_inj; eassumption.
Qed.

Lemma step_dead timestamp (g : Page) :
  isAlive (AppTs.cat g) = false ->
  exec (AppTs.step timestamp) g
  = if 3000 <=? timestamp - AppTs.lastTickTimeStamp g
    then AppTs.setHistory
           (AppTs.history g ++ [TickCalled timestamp; FrameRequested])
           (AppTs.setLastTickTimeStamp timestamp g)
    else AppTs.setHistory (AppTs.history g ++ [FrameRequested]) g.
Proof.
  intros Hdead. rewrite step_run.
  destruct (3000 <=? timestamp - AppTs.lastTickTimeStamp g); [| reflexivity].
  cbv zeta. unfold exec. rewrite gameTick_dead by exact Hdead. fields.
  now rewrite <- app_assoc.
Qed.

Lemma run_dead (inputs : list (Input Code)) : forall g : Page,
  isAlive (AppTs.cat g) = false ->
  AppTs.cat (AppTs.run inputs g) = AppTs.cat g
  /\ mutators (AppTs.history (AppTs.run inputs g))
     = mutators (AppTs.history g)
  /\ drawn (AppTs.history (AppTs.run inputs g)) = drawn (AppTs.history g).
Proof.
  induction inputs as [| i inputs IH]; intros g Hdead; [repeat split |].
  change (AppTs.run (i :: inputs) g)
    with (AppTs.run inputs (AppTs.handle g i)).
  destruct i as [timestamp | code | code | w];
    [| match goal with
       | |- context [AppTs.handle g ?i] =>
           exact (IH (AppTs.handle g i) Hdead)
       end ..].
  cbn [AppTs.handle]. rewrite (step_dead _ _ Hdead).
  destruct (3000 <=? timestamp - AppTs.lastTickTimeStamp g);
    match goal with
    | |- context [AppTs.run inputs ?g1] =>
        destruct (IH g1 Hdead) as (-> & -> & ->)
    end;
    fields; rewrite mutators_app, drawn_app; cbn;
    now rewrite !app_nil_r.
Qed.

(** X7.  Once the cat is dead the page is frozen for good: whatever
    frames and key signals follow, no method changes the cat, no mutator
    is called and nothing is drawn any more, so the canvas keeps showing
    the last live tick; the ticks themselves go on firing on the same
    frames as before. *)
Theorem dead_cat_freezes_the_page (inputs : list (Input Code)) (g : Page) :
  isAlive (AppTs.cat g) = false ->
  AppTs.cat (AppTs.run inputs g) = AppTs.cat g
  /\ mutators (AppTs.history (AppTs.run inputs g))
     = mutators (AppTs.history g)
  /\ drawn (AppTs.history (AppTs.run inputs g)) = drawn (AppTs.history g)
  /\ ticks (AppTs.history (AppTs.run inputs g))
     = ticks (AppTs.history g) ++
       throttle (AppTs.lastTickTimeStamp g) (framesOf inputs).
Proof.
  intros Hdead. destruct (run_dead inputs g Hdead) as (Hc & Hm & Hd).
  repeat split; try assumption. apply run_throttle.
Qed.

(** A tick does to the cat, the cat calls and the canvas what it does
    without the note [step] makes of it. *)
Lemma gameTick_noted timestamp (g : Page) :
  let noted :=
    AppTs.setHistory (AppTs.history g ++ [TickCalled timestamp]) g in
  AppTs.cat (exec AppTs.gameTick noted) = AppTs.cat (exec AppTs.gameTick g)
  /\ mutators (AppTs.history (exec AppTs.gameTick noted))
     = mutators (AppTs.history (exec AppTs.gameTick g))
  /\ drawn (AppTs.history (exec AppTs.gameTick noted))
     = drawn (AppTs.history (exec AppTs.gameTick g)).
Proof.
  cbv zeta. unfold exec. destruct (isAlive (AppTs.cat g)) eqn:Halive.
  - rewrite !gameTick_alive by exact Halive. cbv zeta. fields.
    rewrite !mutators_app, !drawn_app.
    change (mutators [TickCalled timestamp]) with (@nil Mutator).
    change (drawn [TickCalled timestamp]) with (@nil ContextCall).
    rewrite !app_nil_r. repeat split.
  - rewrite !gameTick_dead by exact Halive. fields.
    rewrite mutators_app, drawn_app.
    change (mutators [TickCalled timestamp]) with (@nil Mutator).
    change (drawn [TickCalled timestamp]) with (@nil ContextCall).
    rewrite !app_nil_r. repeat split.
Qed.

Lemma run_frames_cat (frames : list Z) : forall g : Page,
  AppTs.cat (AppTs.run (map AnimationFrame frames) g)
  = Nat.iter
      (length (throttle (AppTs.lastTickTimeStamp g) frames))
      (tickCat (AppTs.keyListener g)) (AppTs.cat g).
Proof.
  induction frames as [| timestamp frames IH]; intros g; [reflexivity |].
  change (AppTs.run (map AnimationFrame (timestamp :: frames)) g)
    with (AppTs.run (map AnimationFrame frames)
            (exec (AppTs.step timestamp) g)).
  rewrite IH, step_cat, step_keyListener, step_lastTickTimeStamp.
  cbn [throttle].
  destruct (3000 <=? timestamp - AppTs.lastTickTimeStamp g);
    [| reflexivity].
  cbn [length]. symmetry. apply Nat.iter_succ_r.
Qed.

(** C3.  On a frame whose timestamp minus [lastTickTimeStamp] is at least
    3000, [step] calls [gameTick] once, then sets [lastTickTimeStamp] to
    the frame's timestamp and asks for the next frame: the state it
    leaves is that of one [gameTick], with the timestamp stored and the
    frame requested, and the cat, the calls on the cat and the drawing
    are those of one [gameTick].  On any other frame it only asks for the
    next frame.  So over any sequence of frames (increasing or not, key
    signals in between or not) the ticks are those of the throttle,
    counted from the last fired tick, initially the start time, and the
    cat is ticked once per fired tick.  With start 0 and frames 0, 1000,
    2999, 3000, 5999, 6000 the ticks are at 3000 and 6000, and the cat
    has been ticked twice. *)
Theorem step_throttles_gameTick (inputs : list (Input Code))
    (frames : list Z) (g : Page) :
  (forall timestamp,
     (3000 <= timestamp - AppTs.lastTickTimeStamp g ->
      exec (AppTs.step timestamp) g
      = (let g' :=
           exec AppTs.gameTick
             (AppTs.setHistory (AppTs.history g ++ [TickCalled timestamp]) g)
         in
         AppTs.setHistory (AppTs.history g' ++ [FrameRequested])
           (AppTs.setLastTickTimeStamp timestamp g'))
      /\ AppTs.cat (exec (AppTs.step timestamp) g)
         = AppTs.cat (exec AppTs.gameTick g)
      /\ mutators (AppTs.history (exec (AppTs.step timestamp) g))
         = mutators (AppTs.history (exec AppTs.gameTick g))
      /\ drawn (AppTs.history (exec (AppTs.step timestamp) g))
         = drawn (AppTs.history (exec AppTs.gameTick g))
      /\ ticks (AppTs.history (exec (AppTs.step timestamp) g))
         = ticks (AppTs.history g) ++ [timestamp]
      /\ AppTs.lastTickTimeStamp (exec (AppTs.step timestamp) g) = timestamp)
     /\ (timestamp - AppTs.lastTickTimeStamp g < 3000 ->
         exec (AppTs.step timestamp) g
         = AppTs.setHistory (AppTs.history g ++ [FrameRequested]) g
         /\ ticks (AppTs.history (exec (AppTs.step timestamp) g))
            = ticks (AppTs.history g)
         /\ AppTs.lastTickTimeStamp (exec (AppTs.step timestamp) g)
            = AppTs.lastTickTimeStamp g))
  /\ ticks (AppTs.history (AppTs.run inputs g))
     = ticks (AppTs.history g) ++
       throttle (AppTs.lastTickTimeStamp g) (framesOf inputs)
  /\ AppTs.lastTickTimeStamp (AppTs.run inputs g)
     = throttleLast (AppTs.lastTickTimeStamp g) (framesOf inputs)
  /\ AppTs.cat (AppTs.run (map AnimationFrame frames) g)
     = Nat.iter
         (length (throttle (AppTs.lastTickTimeStamp g) frames))
         (tickCat (AppTs.keyListener g)) (AppTs.cat g)
  /\ (forall element innerWidth innerHeight,
        option_map
          (fun g0 =>
             let g1 :=
               AppTs.run
                 (map AnimationFrame [0; 1000; 2999; 3000; 5999; 6000]) g0
             in
             (ticks (AppTs.history g1), AppTs.cat g1))
          (AppTs.construct (Some element) innerWidth innerHeight 0)
        = Some ([3000; 6000],
                tickCat newKeyListener (tickCat newKeyListener newCat))).
Proof.
  split; [| split; [| split; [| split]]].
  - intros timestamp. split.
    + intros Hdue.
      assert (Hstep : exec (AppTs.step timestamp) g
        = (let g' :=
             exec AppTs.gameTick
               (AppTs.setHistory
                  (AppTs.history g ++ [TickCalled timestamp]) g) in
           AppTs.setHistory (AppTs.history g' ++ [FrameRequested])
             (AppTs.setLastTickTimeStamp timestamp g'))).
      { rewrite step_run. apply Z.leb_le in Hdue. now rewrite Hdue. }
      split; [exact Hstep |].
      destruct (gameTick_noted timestamp g) as (Hc & Hm & Hd).
      rewrite step_ticks, step_lastTickTimeStamp.
      rewrite Hstep. cbv zeta. fields.
      rewrite mutators_app, drawn_app.
      change (mutators [FrameRequested]) with (@nil Mutator).
      change (drawn [FrameRequested]) with (@nil ContextCall).
      rewrite !app_nil_r.
      apply Z.leb_le in Hdue. rewrite Hdue.
      repeat split; assumption.
    + intros Hearly. split; [now apply step_early |].
      rewrite step_ticks, step_lastTickTimeStamp.
      apply Z.leb_gt in Hearly. rewrite Hearly.
      now rewrite app_nil_r.
  - apply run_throttle.
  - apply run_throttle.
  - apply run_frames_cat.
  - intros element innerWidth innerHeight.
    cbn [AppTs.construct option_map]. cbv zeta. do 2 f_equal.
    + match goal with
      | |- ticks (AppTs.history (AppTs.run ?i ?g0)) = _ =>
          rewrite (proj1 (run_throttle i g0))
      end.
      rewrite framesOf_frames. reflexivity.
    + rewrite run_frames_cat. reflexivity.
Qed.

End RunFacts.

(** * Whole runs of [src/unnamed/part_000] *)

Section Part000RunFacts.

Context {C Code K : Type} `{CatAPI C} `{KeyListenerAPI Code K}.

Abbreviation PageP := (Part000.Catagotchi C K).

Variables draws1 draws2 : option (PageP -> list ContextCall).

Lemma part000_step_dead draws timestamp (p : PageP) :
  isAlive (Part000.cat p) = false ->
  execX (Part000.step draws timestamp) p
  = if 3000 <=? timestamp - Part000.lastTickTimeStamp p
    then Part000.setHistory
           (Part000.history p ++ [TickCalled timestamp; FrameRequested])
           (Part000.setLastTickTimeStamp timestamp p)
    else Part000.setHistory (Part000.history p ++ [FrameRequested]) p.
Proof.
  intros Hdead. rewrite part000_step_run.
  destruct (3000 <=? timestamp - Part000.lastTickTimeStamp p);
    [| reflexivity].
  rewrite part000_gameTick_dead by exact Hdead.
  cbn [snd Part000.history Part000.setHistory Part000.setLastTickTimeStamp
       Part000.canvas Part000.cat Part000.keyListener
       Part000.lastTickTimeStamp].
  now rewrite <- app_assoc.
Qed.

Lemma part000_run_dead (inputs : list (Input Code)) : forall p : PageP,
  isAlive (Part000.cat p) = false ->
  Part000.run draws1 inputs p = Part000.run draws2 inputs p.
Proof.
  induction inputs as [| i inputs IH]; intros p Hdead; [reflexivity |].
  change (Part000.run draws1 (i :: inputs) p)
    with (Part000.run draws1 inputs (Part000.handle draws1 p i)).
  change (Part000.run draws2 (i :: inputs) p)
    with (Part000.run draws2 inputs (Part000.handle draws2 p i)).
  destruct i as [timestamp | code | code | w];
    [| cbn [Part000.handle]; apply IH; exact Hdead ..].
  cbn [Part000.handle]. rewrite !(part000_step_dead _ _ _ Hdead).
  destruct (3000 <=? timestamp - Part000.lastTickTimeStamp p);
    apply IH; exact Hdead.
Qed.

Lemma part000_run_early (inputs : list (Input Code)) : forall p : PageP,
  Forall (fun timestamp => timestamp - Part000.lastTickTimeStamp p < 3000)
    (framesOf inputs) ->
  Part000.run draws1 inputs p = Part000.run draws2 inputs p.
Proof.
  induction inputs as [| i inputs IH]; intros p Hearly; [reflexivity |].
  change (Part000.run draws1 (i :: inputs) p)
    with (Part000.run draws1 inputs (Part000.handle draws1 p i)).
  change (Part000.run draws2 (i :: inputs) p)
    with (Part000.run draws2 inputs (Part000.handle draws2 p i)).
  destruct i as [timestamp | code | code | w];
    [| cbn [Part000.handle]; apply IH; exact Hearly ..].
  change (framesOf (AnimationFrame timestamp :: inputs))
    with (timestamp :: framesOf inputs) in Hearly.
  apply Forall_cons in Hearly as [Hnow Hrest].
  cbn [Part000.handle]. rewrite !part000_step_run.
  apply Z.leb_gt in Hnow. rewrite Hnow. apply IH. exact Hrest.
Qed.

(** X8.  [updateDisplays], which [part_000] calls and does not declare,
    is reached only by a tick that finds the cat alive: in a run that
    starts with a dead cat, or in which no frame comes 3000 or more after
    [lastTickTimeStamp], the outcome is the same whether the object has
    no such method, as the file stands, or has one, whatever it does. *)
Theorem part000_reaches_updateDisplays_on_live_ticks_only
    (inputs : list (Input Code)) (p : PageP) :
  isAlive (Part000.cat p) = false
  \/ Forall (fun timestamp => timestamp - Part000.lastTickTimeStamp p < 3000)
       (framesOf inputs) ->
  Part000.run draws1 inputs p = Part000.run draws2 inputs p.
Proof.
  intros [Hdead | Hearly].
  - now apply part000_run_dead.
  - now apply part000_run_early.
Qed.

End Part000RunFacts.

(** * The run theorems at concrete inputs *)

(** [nothing_happens_before_first_tick] on a page started at 0 that sees
    F pressed and frames at 1000 and 2999. *)
Lemma nothing_happens_before_first_tick_witness :
  drawn
    (AppTs.history
       (@AppTs.run _ _ _ exampleCat exampleKeys
          [KeyDown 70; AnimationFrame 1000; AnimationFrame 2999]
          (exec (AppTs.startRunning 0) exampleGame))) = [].
Proof.
  assert (Hearly :
    Forall (fun timestamp => timestamp - 0 < 3000)
      (framesOf
         [@KeyDown Z 70; AnimationFrame 1000; AnimationFrame 2999])).
  { change (Forall (fun timestamp => timestamp - 0 < 3000) [1000; 2999]).
    repeat constructor. }
  destruct (@nothing_happens_before_first_tick _ _ _ exampleCat exampleKeys
              [KeyDown 70; AnimationFrame 1000; AnimationFrame 2999]
              {| width := 300; height := 150 |} 800 600 0 _ eq_refl Hearly)
    as (_ & _ & _ & _ & Hdrawn).
  exact Hdrawn.
Defined.

(** [dead_cat_freezes_the_page] on a starved cat, F and P held. *)
Lemma dead_cat_freezes_the_page_witness :
  drawn
    (AppTs.history
       (@AppTs.run _ _ _ exampleCat exampleKeys exampleInputs
          exampleDeadGame)) = []
  /\ ticks
       (AppTs.history
          (@AppTs.run _ _ _ exampleCat exampleKeys exampleInputs
             exampleDeadGame)) = [3000; 6000].
Proof.
  destruct (@dead_cat_freezes_the_page _ _ _ exampleCat exampleKeys
              exampleInputs exampleDeadGame eq_refl)
    as (_ & _ & Hdrawn & Hticks).
  split; [exact Hdrawn | exact Hticks].
Defined.

(** [part000_reaches_updateDisplays_on_live_ticks_only] on a starved cat,
    with no method, as the file stands, and with one that clears the
    canvas. *)
Lemma part000_reaches_updateDisplays_on_live_ticks_only_witness :
  @Part000.run _ _ _ exampleCat exampleKeys None exampleInputs
    examplePart000DeadGame
  = @Part000.run _ _ _ exampleCat exampleKeys
      (Some (fun _ => [clearRect 0 0 800 600])) exampleInputs
      examplePart000DeadGame.
Proof.
  exact (@part000_reaches_updateDisplays_on_live_ticks_only
           _ _ _ exampleCat exampleKeys
           None (Some (fun _ => [clearRect 0 0 800 600]))
           exampleInputs examplePart000DeadGame (or_introl eq_refl)).
Defined.

(** * What is on the canvas during a run of [src/src/app.ts] *)

Section DisplayFacts.

Context {C Code K : Type} `{CatAPI C} `{KeyListenerAPI Code K}.

Abbreviation Screen := (AppTs.Catagotchi C K).

Ltac fields :=
  cbn [AppTs.canvas AppTs.background AppTs.cat AppTs.keyListener
       AppTs.lastTickTimeStamp AppTs.history
       AppTs.setBackground AppTs.setCat AppTs.setKeyListener
       AppTs.setLastTickTimeStamp AppTs.setHistory fst snd].

(** What [step] leaves of the canvas, and what it adds to the drawing:
    one redraw of the state it leaves, if it ticked a live cat. *)
Lemma step_drawn timestamp (g : Screen) :
  AppTs.canvas (exec (AppTs.step timestamp) g) = AppTs.canvas g
  /\ AppTs.background (exec (AppTs.step timestamp) g) = AppTs.background g
  /\ drawn (AppTs.history (exec (AppTs.step timestamp) g))
     = drawn (AppTs.history g) ++
       (if (3000 <=? timestamp - AppTs.lastTickTimeStamp g)
           && isAlive (AppTs.cat g)
        then AppTs.display (exec (AppTs.step timestamp) g) else []).
Proof.
  rewrite step_run.
  destruct (3000 <=? timestamp - AppTs.lastTickTimeStamp g);
    cbv zeta; fields; cbn [andb].
  - unfold exec. destruct (isAlive (AppTs.cat g)) eqn:Halive.
    + rewrite gameTick_alive by exact Halive. cbv zeta. fields.
      split; [reflexivity |]. split; [reflexivity |].
      rewrite !drawn_app, drawn_CatCalled, drawn_ContextCalled.
      change (drawn [TickCalled timestamp]) with (@nil ContextCall).
      change (drawn [CatCalled Ignore]) with (@nil ContextCall).
      change (drawn [FrameRequested]) with (@nil ContextCall).
      rewrite !app_nil_r. cbn [app]. reflexivity.
    + rewrite gameTick_dead by exact Halive. fields.
      split; [reflexivity |]. split; [reflexivity |].
      rewrite !drawn_app.
      change (drawn [TickCalled timestamp]) with (@nil ContextCall).
      change (drawn [FrameRequested]) with (@nil ContextCall).
      now rewrite !app_nil_r.
  - split; [reflexivity |]. split; [reflexivity |].
    rewrite drawn_app.
    change (drawn [FrameRequested]) with (@nil ContextCall).
    reflexivity.
Qed.

Lemma step_cat_unchanged timestamp (g : Screen) :
  (3000 <=? timestamp - AppTs.lastTickTimeStamp g) && isAlive (AppTs.cat g)
  = false ->
  AppTs.cat (exec (AppTs.step timestamp) g) = AppTs.cat g.
Proof.
  rewrite step_cat. unfold tickCat.
  destruct (3000 <=? timestamp - AppTs.lastTickTimeStamp g),
    (isAlive (AppTs.cat g)); cbn; congruence.
Qed.

(** X9.  The canvas is never stale.  At any point of a run of a freshly
    constructed page, either nothing has been drawn yet and the cat is
    still the new cat, or the last three texts written on the canvas are
    the energy, hunger and mood of the cat as it is now. *)
Theorem canvas_is_never_stale (inputs : list (Input Code))
    (element : HTMLCanvasElement) (innerWidth innerHeight now : Z)
    (g0 : Screen) :
  AppTs.construct (Some element) innerWidth innerHeight now = Some g0 ->
  (drawn (AppTs.history (AppTs.run inputs g0)) = []
   /\ AppTs.cat (AppTs.run inputs g0) = newCat)
  \/ exists earlier,
       texts (drawn (AppTs.history (AppTs.run inputs g0)))
       = earlier ++ labels (AppTs.cat (AppTs.run inputs g0)).
Proof.
  intros Hg0.
  assert (Hrun : forall g : Screen,
    (drawn (AppTs.history g) = [] /\ AppTs.cat g = newCat)
    \/ (exists earlier,
          texts (drawn (AppTs.history g)) = earlier ++ labels (AppTs.cat g)) ->
    (drawn (AppTs.history (AppTs.run inputs g)) = []
     /\ AppTs.cat (AppTs.run inputs g) = newCat)
    \/ (exists earlier,
          texts (drawn (AppTs.history (AppTs.run inputs g)))
          = earlier ++ labels (AppTs.cat (AppTs.run inputs g)))).
  { clear. induction inputs as [| i inputs IH]; intros g Hg; [exact Hg |].
    change (AppTs.run (i :: inputs) g)
      with (AppTs.run inputs (AppTs.handle g i)).
    apply IH.
    destruct i as [timestamp | code | code | w]; [| exact Hg ..].
    cbn [AppTs.handle].
    destruct (step_drawn timestamp g) as (_ & _ & ->).
    destruct ((3000 <=? timestamp - AppTs.lastTickTimeStamp g)
              && isAlive (AppTs.cat g)) eqn:Hlive.
    - right. exists (texts (drawn (AppTs.history g))).
      unfold texts. rewrite omap_app. reflexivity.
    - rewrite app_nil_r, (step_cat_unchanged _ _ Hlive). exact Hg. }
  injection Hg0 as <-. apply Hrun. left. split; reflexivity.
Qed.

(** X10.  The canvas keeps the size the window had at construction:
    nothing in a run resizes it, and every [clearRect] of the run clears
    exactly that rectangle, from the origin. *)
Theorem canvas_keeps_its_size (inputs : list (Input Code))
    (element : HTMLCanvasElement) (innerWidth innerHeight now : Z)
    (g0 : Screen) :
  AppTs.construct (Some element) innerWidth innerHeight now = Some g0 ->
  AppTs.canvas (AppTs.run inputs g0)
  = {| width := innerWidth; height := innerHeight |}
  /\ Forall (clearsAll {| width := innerWidth; height := innerHeight |})
       (drawn (AppTs.history (AppTs.run inputs g0))).
Proof.
  intros Hg0.
  assert (Hrun : forall (size : HTMLCanvasElement) (g : Screen),
    AppTs.canvas g = size /\ Forall (clearsAll size) (drawn (AppTs.history g)) ->
    AppTs.canvas (AppTs.run inputs g) = size
    /\ Forall (clearsAll size) (drawn (AppTs.history (AppTs.run inputs g)))).
  { clear. intros size.
    induction inputs as [| i inputs IH]; intros g Hg; [exact Hg |].
    change (AppTs.run (i :: inputs) g)
      with (AppTs.run inputs (AppTs.handle g i)).
    apply IH.
    destruct i as [timestamp | code | code | w]; [| exact Hg ..].
    cbn [AppTs.handle]. destruct Hg as [Hsize Hclears].
    destruct (step_drawn timestamp g) as (Hcanvas & _ & ->).
    split; [congruence |].
    apply Forall_app. split; [exact Hclears |].
    destruct ((3000 <=? timestamp - AppTs.lastTickTimeStamp g)
              && isAlive (AppTs.cat g)); [| constructor].
    unfold AppTs.display. rewrite Hcanvas, Hsize.
    repeat constructor. }
  injection Hg0 as <-. apply Hrun. split; [reflexivity | constructor].
Qed.

End DisplayFacts.

(** [canvas_is_never_stale] after the example run: the canvas ends on the
    texts of the cat that two ticks, one with F held and one with S held,
    have left. *)
Lemma canvas_is_never_stale_witness :
  exists earlier,
    texts
      (drawn
         (AppTs.history
            (@AppTs.run _ _ _ exampleCat exampleKeys exampleInputs
               (exec (AppTs.startRunning 0) exampleGame))))
    = earlier ++ ["Energy: 50"; "Hunger: 40"; "Mood: 40"].
Proof.
  destruct (@canvas_is_never_stale _ _ _ exampleCat exampleKeys
              exampleInputs {| width := 300; height := 150 |} 800 600 0 _
              eq_refl) as [[Hnone _] | Hshown].
  - vm_compute in Hnone. discriminate Hnone.
  - exact Hshown.
Defined.

(** [canvas_keeps_its_size] after the example run. *)
Lemma canvas_keeps_its_size_witness :
  AppTs.canvas
    (@AppTs.run _ _ _ exampleCat exampleKeys exampleInputs
       (exec (AppTs.startRunning 0) exampleGame))
  = {| width := 800; height := 600 |}.
Proof.
  exact (proj1 (@canvas_keeps_its_size _ _ _ exampleCat exampleKeys
                  exampleInputs {| width := 300; height := 150 |} 800 600 0
                  _ eq_refl)).
Defined.

(** * Loading the image *)

Section StartFacts.

Context {C Code K : Type} `{CatAPI C} `{KeyListenerAPI Code K}.

Abbreviation Site := (AppTs.Catagotchi C K).

Ltac fields :=
  cbn [AppTs.canvas AppTs.background AppTs.cat AppTs.keyListener
       AppTs.lastTickTimeStamp AppTs.history
       AppTs.setBackground AppTs.setCat AppTs.setKeyListener
       AppTs.setLastTickTimeStamp AppTs.setHistory fst snd].

Lemma step_undrawn timestamp (g : Site) :
  undrawn (AppTs.history (exec (AppTs.step timestamp) g))
  = undrawn (AppTs.history g) ++
    (if 3000 <=? timestamp - AppTs.lastTickTimeStamp g
     then TickCalled timestamp ::
          (if isAlive (AppTs.cat g)
           then CatCalled Ignore ::
                map CatCalled (heldActions (AppTs.keyListener g))
           else [])
     else []) ++ [FrameRequested].
Proof.
  rewrite step_run.
  destruct (3000 <=? timestamp - AppTs.lastTickTimeStamp g);
    cbv zeta; fields.
  - unfold exec. destruct (isAlive (AppTs.cat g)) eqn:Halive.
    + rewrite gameTick_alive by exact Halive. cbv zeta. fields.
      rewrite !undrawn_app, undrawn_CatCalled, undrawn_ContextCalled.
      change (undrawn [TickCalled timestamp]) with [TickCalled timestamp].
      change (undrawn [CatCalled Ignore]) with [CatCalled Ignore].
      change (undrawn [FrameRequested]) with [FrameRequested].
      rewrite app_nil_r, <- !app_assoc. reflexivity.
    + rewrite gameTick_dead by exact Halive. fields.
      rewrite !undrawn_app.
      change (undrawn [TickCalled timestamp]) with [TickCalled timestamp].
      change (undrawn [FrameRequested]) with [FrameRequested].
      rewrite <- !app_assoc. reflexivity.
  - rewrite undrawn_app. reflexivity.
Qed.

Lemma step_texts timestamp (g : Site) :
  texts (drawn (AppTs.history (exec (AppTs.step timestamp) g)))
  = texts (drawn (AppTs.history g)) ++
    (if (3000 <=? timestamp - AppTs.lastTickTimeStamp g)
        && isAlive (AppTs.cat g)
     then labels (AppTs.cat (exec (AppTs.step timestamp) g)) else []).
Proof.
  destruct (step_drawn timestamp g) as (_ & _ & ->).
  unfold texts. rewrite omap_app.
  destruct ((3000 <=? timestamp - AppTs.lastTickTimeStamp g)
            && isAlive (AppTs.cat g)); reflexivity.
Qed.

Lemma sameButImage_step timestamp (g1 g2 : Site) :
  sameButImage g1 g2 ->
  sameButImage (exec (AppTs.step timestamp) g1)
    (exec (AppTs.step timestamp) g2).
Proof.
  intros (Hcv & Hc & Hk & Hl & Hu & Ht). unfold sameButImage.
  rewrite !step_cat, !step_keyListener, !step_lastTickTimeStamp,
    !step_undrawn, !step_texts, !step_cat.
  destruct (step_drawn timestamp g1) as (-> & _ & _).
  destruct (step_drawn timestamp g2) as (-> & _ & _).
  rewrite Hcv, Hc, Hk, Hl, Hu, Ht. repeat split.
Qed.

Lemma sameButImage_run (inputs : list (Input Code)) : forall g1 g2 : Site,
  sameButImage g1 g2 ->
  sameButImage (AppTs.run inputs g1) (AppTs.run (withoutImage inputs) g2).
Proof.
  induction inputs as [| i inputs IH]; intros g1 g2 Hsame; [exact Hsame |].
  destruct i as [timestamp | code | code | w].
  - apply (IH (exec (AppTs.step timestamp) g1)
              (exec (AppTs.step timestamp) g2)).
    now apply sameButImage_step.
  - apply (IH (AppTs.handle g1 (KeyDown code))
              (AppTs.handle g2 (KeyDown code))).
    destruct Hsame as (Hcv & Hc & Hk & Hl & Hu & Ht).
    unfold sameButImage. cbn [AppTs.handle]. fields.
    rewrite Hk. repeat split; assumption.
  - apply (IH (AppTs.handle g1 (KeyUp code))
              (AppTs.handle g2 (KeyUp code))).
    destruct Hsame as (Hcv & Hc & Hk & Hl & Hu & Ht).
    unfold sameButImage. cbn [AppTs.handle]. fields.
    rewrite Hk. repeat split; assumption.
  - apply (IH (AppTs.handle g1 (ImageLoaded w)) g2). exact Hsame.
Qed.

(** X12.  Whether and when the background image loads changes nothing but
    the [drawImage] calls: a run and the same run without its image-load
    signals end with the same cat, key flags, tick timestamp and canvas
    size, have fired the same ticks and made the same calls on the cat,
    and have written the same texts on the canvas. *)
Theorem image_load_changes_only_the_picture
    (inputs : list (Input Code)) (g : Site) :
  sameButImage (AppTs.run inputs g) (AppTs.run (withoutImage inputs) g)
  /\ ticks (AppTs.history (AppTs.run inputs g))
     = ticks (AppTs.history (AppTs.run (withoutImage inputs) g))
  /\ mutators (AppTs.history (AppTs.run inputs g))
     = mutators (AppTs.history (AppTs.run (withoutImage inputs) g)).
Proof.
  assert (Hsame : sameButImage g g) by (repeat split).
  pose proof (sameButImage_run inputs g g Hsame) as Hrun.
  split; [exact Hrun |].
  destruct Hrun as (_ & _ & _ & _ & Hu & _).
  split.
  - now rewrite <- ticks_undrawn, Hu, ticks_undrawn.
  - now rewrite <- mutators_undrawn, Hu, mutators_undrawn.
Qed.

End StartFacts.
